(** * Order workflow, access gate and password recovery of the storefront

    A shallow embedding of [server/storage.ts] (class [DatabaseStorage]),
    of the tables of [shared/schema.ts] and of the route handlers that
    [registerRoutes] installs on top of them.

    Conventions of the embedding.
    - A table is the list of its rows.  The constraints that
      [shared/schema.ts] declares on a table ([references], [unique]) are
      checked by the insert into that table, which is rejected when one is
      violated, as the relational store does.
    - A [select] without [orderBy] returns its rows in an order that the
      store chooses.  The embedding lists them in the order of the table,
      which is a choice of its own: what is stated of such a result is stated
      of its rows, not of their order.
    - [gen_random_uuid()] is a choice of an identifier that no row of the
      table carries ([fresh]); collisions of random identifiers are not
      modelled.
    - [integer] columns are [Z]; [decimal(10,2)] columns are [Z], counting
      hundredths; [timestamp] columns are [Z], counting milliseconds.  A
      statement that writes a value outside the range of its column
      ([fitsInteger], [fitsDecimal]) is rejected by the store.
    - An [async] method is a function from the store to the store reached
      when the promise settles, paired with how it settled.  Every awaited
      statement commits on its own: a rejection keeps the writes made
      before it, since no statement of the source opens a transaction.
    - The clock ([defaultNow()], [Date.now()], [new Date()]) is an argument
      [now] of the operations that read it.
    - A string is the sequence of the bytes of its UTF-8 encoding; the
      length that the schemas measure is its number of UTF-16 code units
      ([utf16Length]).
    - The table [admin_config] is kept beside the store, and passed to its
      two methods explicitly.  The mail that the recovery route sends, the
      payment routes and the health route are not embedded. *)

From Stdlib Require Import ZArith String List Bool Lia.
From stdpp Require Import base option list strings infinite sorting.
Import ListNotations.

Local Open Scope string_scope.
Local Open Scope Z_scope.
Local Open Scope list_scope.

(** ** Column types and strings *)

(** [integer]: a signed integer of 32 bits. *)
Definition fitsInteger (n : Z) : bool :=
  (-2147483648 <=? n) && (n <=? 2147483647).

(** [decimal(10,2)], in hundredths: ten digits, two of them after the point. *)
Definition fitsDecimal (hundredths : Z) : bool :=
  (-10000000000 <? hundredths) && (hundredths <? 10000000000).

(** The number of UTF-16 code units of a string given by its UTF-8 bytes,
    which is what [s.length] and [z.string().min(n)] count.  A character of
    one, two or three bytes is one unit, a character of four bytes is two.
    [pending] holds, for each continuation byte still expected, the units it
    adds; a byte that belongs to no character counts for one unit. *)
Fixpoint utf16_units (pending : list nat) (s : string) : nat :=
  match s with
  | EmptyString => 0%nat
  | String c rest =>
      let b := Ascii.nat_of_ascii c in
      if (b <? 128)%nat then S (utf16_units [] rest)
      else if (b <? 192)%nat then
        match pending with
        | n :: pending' => (n + utf16_units pending' rest)%nat
        | [] => S (utf16_units [] rest)
        end
      else if (b <? 224)%nat then S (utf16_units [0%nat] rest)
      else if (b <? 240)%nat then S (utf16_units [0%nat; 0%nat] rest)
      else S (utf16_units [1%nat; 0%nat; 0%nat] rest)
  end.

Definition utf16Length (s : string) : nat := utf16_units [] s.

(** ** Rows of [shared/schema.ts] *)

Module User.
Record t := mk {
  id : string;
  email : string;
  password : string;
  name : string;
  role : string;
  createdAt : option Z
}.

Definition with_password (pw : string) (u : t) : t :=
  mk (id u) (email u) pw (name u) (role u) (createdAt u).
End User.

Module Product.
Record t := mk {
  id : string;
  name : string;
  description : string;
  price : Z;
  imageUrl : string;
  type : string;
  ageRange : string;
  category : string;
  stock : option Z;
  isActive : bool;
  createdAt : option Z
}.

Definition with_stock (st : option Z) (p : t) : t :=
  mk (id p) (name p) (description p) (price p) (imageUrl p) (type p)
     (ageRange p) (category p) st (isActive p) (createdAt p).
End Product.

Module Order.
Record t := mk {
  id : string;
  userId : option string;
  total : Z;
  status : string;
  customerName : string;
  customerEmail : string;
  customerPhone : string;
  shippingAddress : string;
  createdAt : option Z
}.

Definition with_status (st : string) (o : t) : t :=
  mk (id o) (userId o) (total o) st (customerName o) (customerEmail o)
     (customerPhone o) (shippingAddress o) (createdAt o).
End Order.

Module OrderItem.
Record t := mk {
  id : string;
  orderId : string;
  productId : string;
  quantity : Z;
  price : Z
}.
End OrderItem.

Module PasswordResetToken.
Record t := mk {
  id : string;
  userId : string;
  token : string;
  expiresAt : Z;
  createdAt : option Z
}.
End PasswordResetToken.

(** [insertOrderSchema]: the columns of [orders] without [id], [userId] and
    [createdAt].  [status] has a column default, so the inferred type makes
    it optional. *)
Module InsertOrder.
Record t := mk {
  total : Z;
  status : option string;
  customerName : string;
  customerEmail : string;
  customerPhone : string;
  shippingAddress : string
}.
End InsertOrder.

(** [insertOrderItemSchema]: the columns of [order_items] without [id]. *)
Module InsertOrderItem.
Record t := mk {
  orderId : string;
  productId : string;
  quantity : Z;
  price : Z
}.

Definition with_orderId (oid : string) (i : t) : t :=
  mk oid (productId i) (quantity i) (price i).
End InsertOrderItem.

(** An element of [OrderWithItems.items]: [OrderItem & { product: Product }]. *)
Record ItemWithProduct := {
  item : OrderItem.t;
  product : Product.t
}.

(** [OrderWithItems extends Order]. *)
Record OrderWithItems := {
  header : Order.t;
  items : list ItemWithProduct
}.

(** ** The relational store *)

Record Store := {
  users : list User.t;
  products : list Product.t;
  orders : list Order.t;
  orderItems : list OrderItem.t;
  passwordResetTokens : list PasswordResetToken.t
}.

Definition set_users (f : list User.t -> list User.t) (s : Store) : Store :=
  {| users := f (users s); products := products s; orders := orders s;
     orderItems := orderItems s;
     passwordResetTokens := passwordResetTokens s |}.

Definition set_products (f : list Product.t -> list Product.t) (s : Store) : Store :=
  {| users := users s; products := f (products s); orders := orders s;
     orderItems := orderItems s;
     passwordResetTokens := passwordResetTokens s |}.

Definition set_orders (f : list Order.t -> list Order.t) (s : Store) : Store :=
  {| users := users s; products := products s; orders := f (orders s);
     orderItems := orderItems s;
     passwordResetTokens := passwordResetTokens s |}.

Definition set_orderItems (f : list OrderItem.t -> list OrderItem.t) (s : Store) : Store :=
  {| users := users s; products := products s; orders := orders s;
     orderItems := f (orderItems s);
     passwordResetTokens := passwordResetTokens s |}.

Definition set_passwordResetTokens
    (f : list PasswordResetToken.t -> list PasswordResetToken.t) (s : Store) : Store :=
  {| users := users s; products := products s; orders := orders s;
     orderItems := orderItems s;
     passwordResetTokens := f (passwordResetTokens s) |}.

(** The query builder: [select().from(t).where(c)], [update(t).set(..).where(c)],
    [delete(t).where(c)], and the destructuring [const [row] = ...]. *)
Section Table.
Context {R : Type}.

Definition selectWhere (c : R -> bool) (t : list R) : list R :=
  List.filter c t.

Definition updateWhere (c : R -> bool) (set : R -> R) (t : list R) : list R :=
  map (fun r => if c r then set r else r) t.

Definition deleteWhere (c : R -> bool) (t : list R) : list R :=
  List.filter (fun r => negb (c r)) t.

Definition first (rows : list R) : option R := head rows.
End Table.

(** The column default [gen_random_uuid()]. *)
Definition gen_random_uuid (taken : list string) : string := fresh taken.

(** ** Promises over the store *)

Inductive Violation :=
| ForeignKey (table column : string)
| Unique (table column : string)
| OutOfRange (table column : string).

(** What a [try] block can catch here: a [ZodError] of a failed [parse], an
    [Error] thrown with a message, an error raised by the store. *)
Inductive Exn :=
| ZodError
| Error (message : string)
| DatabaseError (v : Violation).

Inductive Settled (A : Type) :=
| Fulfilled (value : A)
| Rejected (reason : Exn).
Arguments Fulfilled {A} value.
Arguments Rejected {A} reason.

Definition Promise (A : Type) : Type := Store -> Store * Settled A.

Definition resolve {A} (a : A) : Promise A := fun s => (s, Fulfilled a).

Definition throw {A} (e : Exn) : Promise A := fun s => (s, Rejected e).

(** [const x = await m; k x]: a rejection of [m] skips [k] and keeps the
    store as [m] left it. *)
Definition await {A B} (m : Promise A) (k : A -> Promise B) : Promise B :=
  fun s =>
    match m s with
    | (s', Fulfilled a) => k a s'
    | (s', Rejected e) => (s', Rejected e)
    end.

Notation "'let*' x ':=' m 'in' k" := (await m (fun x => k))
  (at level 10, x name, m at level 100, k at level 200).
Notation "m ';;' k" := (await m (fun _ => k))
  (at level 100, k at level 200, right associativity).

Definition read {A} (q : Store -> A) : Promise A := fun s => (s, Fulfilled (q s)).

Definition write (f : Store -> Store) : Promise unit := fun s => (f s, Fulfilled tt).

(** ** [DatabaseStorage] *)

(** [const [row] = await db.select().from(t).where(eq(t.id, id))] on the
    tables with a key. *)
Definition userRow (id : string) (s : Store) : option User.t :=
  first (selectWhere (fun u => String.eqb (User.id u) id) (users s)).

Definition productRow (id : string) (s : Store) : option Product.t :=
  first (selectWhere (fun p => String.eqb (Product.id p) id) (products s)).

Definition orderRow (id : string) (s : Store) : option Order.t :=
  first (selectWhere (fun o => String.eqb (Order.id o) id) (orders s)).

Definition getUser (id : string) : Promise (option User.t) :=
  read (userRow id).

Definition getProduct (id : string) : Promise (option Product.t) :=
  read (productRow id).

(** [db.insert(orders).values(order).returning()]: [id] and [createdAt] take
    their defaults, [status] takes its default when the value has none,
    [userId] is not among the values and stays null. *)
Definition newOrderRow (now : Z) (v : InsertOrder.t) (s : Store) : Order.t :=
  {| Order.id := gen_random_uuid (map Order.id (orders s));
     Order.userId := None;
     Order.total := InsertOrder.total v;
     Order.status := default "pending" (InsertOrder.status v);
     Order.customerName := InsertOrder.customerName v;
     Order.customerEmail := InsertOrder.customerEmail v;
     Order.customerPhone := InsertOrder.customerPhone v;
     Order.shippingAddress := InsertOrder.shippingAddress v;
     Order.createdAt := Some now |}.

Definition insertOrder (now : Z) (v : InsertOrder.t) : Promise Order.t :=
  fun s =>
    if negb (fitsDecimal (InsertOrder.total v))
    then (s, Rejected (DatabaseError (OutOfRange "orders" "total")))
    else
      let row := newOrderRow now v s in
      (set_orders (fun t => t ++ [row]) s, Fulfilled row).

(** [db.insert(orderItems).values(v).returning()]: [quantity] and [price] are
    converted to the types of their columns, then [order_id] references
    [orders.id] and [product_id] references [products.id]. *)
Definition newOrderItemRow (v : InsertOrderItem.t) (s : Store) : OrderItem.t :=
  {| OrderItem.id := gen_random_uuid (map OrderItem.id (orderItems s));
     OrderItem.orderId := InsertOrderItem.orderId v;
     OrderItem.productId := InsertOrderItem.productId v;
     OrderItem.quantity := InsertOrderItem.quantity v;
     OrderItem.price := InsertOrderItem.price v |}.

Definition insertOrderItem (v : InsertOrderItem.t) : Promise OrderItem.t :=
  fun s =>
    if negb (fitsInteger (InsertOrderItem.quantity v))
    then (s, Rejected (DatabaseError (OutOfRange "order_items" "quantity")))
    else if negb (fitsDecimal (InsertOrderItem.price v))
    then (s, Rejected (DatabaseError (OutOfRange "order_items" "price")))
    else if negb (existsb (fun o => String.eqb (Order.id o) (InsertOrderItem.orderId v))
                     (orders s))
    then (s, Rejected (DatabaseError (ForeignKey "order_items" "order_id")))
    else if negb (existsb (fun p => String.eqb (Product.id p) (InsertOrderItem.productId v))
                          (products s))
    then (s, Rejected (DatabaseError (ForeignKey "order_items" "product_id")))
    else
      let row := newOrderItemRow v s in
      (set_orderItems (fun t => t ++ [row]) s, Fulfilled row).

(** [db.update(products).set({ stock }).where(eq(products.id, id))]. *)
Definition updateProductStock (id : string) (st : Z) : Promise unit :=
  if negb (fitsInteger st)
  then throw (DatabaseError (OutOfRange "products" "stock"))
  else
    write (set_products
             (updateWhere (fun p => String.eqb (Product.id p) id)
                          (Product.with_stock (Some st)))).

(** The body of [for (const item of items)] in [createOrder], followed by the
    remaining iterations. *)
Fixpoint createOrder_items (newOrder : Order.t) (items : list InsertOrderItem.t)
    (createdItems : list ItemWithProduct) : Promise (list ItemWithProduct) :=
  match items with
  | [] => resolve createdItems
  | item :: rest =>
      let* orderItem :=
        insertOrderItem (InsertOrderItem.with_orderId (Order.id newOrder) item) in
      let* product := getProduct (InsertOrderItem.productId item) in
      match product with
      | Some product =>
          let createdItems' :=
            createdItems ++ [{| item := orderItem; product := product |}] in
          match String.eqb (Product.type product) "physical", Product.stock product with
          | true, Some stock =>
              updateProductStock (Product.id product)
                                 (stock - InsertOrderItem.quantity item);;
              createOrder_items newOrder rest createdItems'
          | _, _ => createOrder_items newOrder rest createdItems'
          end
      | None => createOrder_items newOrder rest createdItems
      end
  end.

Definition createOrder (now : Z) (order : InsertOrder.t)
    (items : list InsertOrderItem.t) : Promise OrderWithItems :=
  let* newOrder := insertOrder now order in
  let* createdItems := createOrder_items newOrder items [] in
  resolve {| header := newOrder; items := createdItems |}.

(** [db.update(orders).set({ status }).where(eq(orders.id, id)).returning()],
    then [updatedOrder || undefined]. *)
Definition updateOrderStatus (id status : string) : Promise (option Order.t) :=
  fun s =>
    let c := fun o => String.eqb (Order.id o) id in
    (set_orders (updateWhere c (Order.with_status status)) s,
     Fulfilled (first (map (Order.with_status status) (selectWhere c (orders s))))).

(** The select of [order_items] joined to [products] that [getUserOrders]
    issues for one order.  The select has no [orderBy]: the order of the
    rows below is the embedding's. *)
Definition itemsOfOrder (orderId : string) (s : Store) : list ItemWithProduct :=
  flat_map
    (fun it =>
       map (fun p => {| item := it; product := p |})
           (selectWhere (fun p => String.eqb (OrderItem.productId it) (Product.id p))
                        (products s)))
    (selectWhere (fun it => String.eqb (OrderItem.orderId it) orderId) (orderItems s)).

(** [eq(orders.userId, userId)]: a null [user_id] equals no value. *)
Definition ownedBy (userId : string) (o : Order.t) : bool :=
  match Order.userId o with
  | Some u => String.eqb u userId
  | None => false
  end.

Definition getUserOrders (userId : string) : Promise (list OrderWithItems) :=
  read (fun s =>
          map (fun o => {| header := o; items := itemsOfOrder (Order.id o) s |})
              (selectWhere (ownedBy userId) (orders s))).

Definition updateUserPassword (userId newPassword : string) : Promise unit :=
  write (set_users
           (updateWhere (fun u => String.eqb (User.id u) userId)
                        (User.with_password newPassword))).

(** [token] is unique; [user_id] references [users.id].  The store tests
    the unique index when it inserts the row, and the reference after. *)
Definition createPasswordRecoveryToken (now : Z) (userId token : string) : Promise unit :=
  fun s =>
    let expiresAt := now + 60 * 60 * 1000 in
    if existsb (fun r => String.eqb (PasswordResetToken.token r) token)
               (passwordResetTokens s)
    then (s, Rejected (DatabaseError (Unique "password_reset_tokens" "token")))
    else if negb (existsb (fun u => String.eqb (User.id u) userId) (users s))
    then (s, Rejected (DatabaseError (ForeignKey "password_reset_tokens" "user_id")))
    else
      let row :=
        {| PasswordResetToken.id :=
             gen_random_uuid (map PasswordResetToken.id (passwordResetTokens s));
           PasswordResetToken.userId := userId;
           PasswordResetToken.token := token;
           PasswordResetToken.expiresAt := expiresAt;
           PasswordResetToken.createdAt := Some now |} in
      (set_passwordResetTokens (fun t => t ++ [row]) s, Fulfilled tt).

Definition deletePasswordRecoveryToken (token : string) : Promise unit :=
  write (set_passwordResetTokens
           (deleteWhere (fun r => String.eqb (PasswordResetToken.token r) token))).

Definition validatePasswordRecoveryToken (now : Z) (token : string)
    : Promise (option string) :=
  let* result :=
    read (fun s =>
            take 1 (selectWhere (fun r => String.eqb (PasswordResetToken.token r) token)
                                (passwordResetTokens s))) in
  match result with
  | [] => resolve None
  | resetToken :: _ =>
      if PasswordResetToken.expiresAt resetToken <? now
      then deletePasswordRecoveryToken token;; resolve None
      else resolve (Some (PasswordResetToken.userId resetToken))
  end.

(** ** Route handlers *)

(** The string methods the handlers use. *)
Definition startsWith (prefix s : string) : bool := String.prefix prefix s.

Definition substring (start : nat) (s : string) : string :=
  String.substring start (String.length s - start) s.

(** [s.replace(pattern, replacement)] with a string pattern: the first
    occurrence only. *)
Definition replace (pattern replacement s : string) : string :=
  match String.index 0 pattern s with
  | Some n =>
      String.append (String.substring 0 n s)
        (String.append replacement (substring (n + String.length pattern) s))
  | None => s
  end.

Inductive Json :=
| Message (message : string)
| MessageWithErrors (message : string)
| OrderJson (o : Order.t)
| OrderWithItemsJson (o : OrderWithItems).

Record Response := {
  statusCode : nat;
  json : Json
}.

(** A request: the [Authorization] header, the [:id] segment of the path, and
    the body.  A body is [None] when the handler's schema refuses its shape
    (the keys and their types); otherwise it is the value that [parse]
    returns for it, where keys outside the schema are stripped.  A decimal is
    sent as a string: the body is taken to carry numerals there, and their
    range is left to the store, since the schema tests a string only. *)
Record Request (B : Type) := {
  authorization : option string;
  params_id : string;
  body : option B
}.
Arguments authorization {B} _.
Arguments params_id {B} _.
Arguments body {B} _.

Definition parse {B} (b : option B) : Promise B :=
  match b with
  | Some v => resolve v
  | None => throw ZodError
  end.

(** [try { ... } catch (error) { ... }] around the body of a handler. *)
Definition try_catch (body : Promise Response) (handler : Exn -> Response)
    : Store -> Store * Response :=
  fun s =>
    match body s with
    | (s', Fulfilled r) => (s', r)
    | (s', Rejected e) => (s', handler e)
    end.

(** The message of a store error is the store's own text; it is none of the
    messages the handlers compare with. *)
Definition violation_message (v : Violation) : string :=
  match v with
  | ForeignKey t c => String.append "violates foreign key constraint on " (String.append t (String.append "." c))
  | Unique t c => String.append "violates unique constraint on " (String.append t (String.append "." c))
  | OutOfRange t c => String.append "value out of range for " (String.append t (String.append "." c))
  end.

(** [authenticateAdmin]. *)
Definition authenticateAdmin {B} (req : Request B) : Promise User.t :=
  match authorization req with
  | None => throw (Error "No autorizado")
  | Some authHeader =>
      if negb (startsWith "Bearer " authHeader) then throw (Error "No autorizado")
      else
        let token := substring 7 authHeader in
        if negb (startsWith "mock_token_" token) then throw (Error "Token inválido")
        else
          let userId := replace "mock_token_" "" token in
          let* user := getUser userId in
          match user with
          | None => throw (Error "Usuario no encontrado")
          | Some user =>
              if negb (String.eqb (User.role user) "admin")
              then throw (Error "Acceso denegado")
              else resolve user
          end
  end.

(** The [catch] clause shared by the handlers behind [authenticateAdmin]:
    [error instanceof Error ? error.message : fallback], then the status
    chosen from the message. *)
Definition statusOfMessage (message : string) : nat :=
  if String.eqb message "No autorizado" || String.eqb message "Token inválido"
  then 401%nat
  else if String.eqb message "Acceso denegado" then 403%nat else 500%nat.

Definition adminCatch (zodMessage : string) (e : Exn) : Response :=
  match e with
  | ZodError => {| statusCode := 400; json := MessageWithErrors zodMessage |}
  | Error message =>
      {| statusCode := statusOfMessage message; json := Message message |}
  | DatabaseError v =>
      {| statusCode := statusOfMessage (violation_message v);
         json := Message (violation_message v) |}
  end.



(** [app.put("/api/orders/:id/status", ...)]. *)
Definition put_api_orders_id_status (req : Request string)
    : Store -> Store * Response :=
  try_catch
    (authenticateAdmin req;;
     let* status := parse (body req) in
     let* order := updateOrderStatus (params_id req) status in
     match order with
     | None => resolve {| statusCode := 404; json := Message "Orden no encontrada" |}
     | Some order => resolve {| statusCode := 200; json := OrderJson order |}
     end)
    (adminCatch "Datos de estado inválidos").





(** ** Vocabulary of the statements *)

(** The total quantity that the lines of a request ask of one product. *)
Fixpoint requested (productId : string) (lines : list InsertOrderItem.t) : Z :=
  match lines with
  | [] => 0
  | l :: rest =>
      (if String.eqb (InsertOrderItem.productId l) productId
       then InsertOrderItem.quantity l else 0)
      + requested productId rest
  end.

(** The columns of an [order_items] row other than its [id]. *)
Definition lineOf (row : OrderItem.t) : InsertOrderItem.t :=
  {| InsertOrderItem.orderId := OrderItem.orderId row;
     InsertOrderItem.productId := OrderItem.productId row;
     InsertOrderItem.quantity := OrderItem.quantity row;
     InsertOrderItem.price := OrderItem.price row |}.

(** A line resolves when [getProduct] finds a product for it. *)
Definition resolves (s : Store) (l : InsertOrderItem.t) : Prop :=
  productRow (InsertOrderItem.productId l) s <> None.

(** The rows that carry a reset token. *)
Definition tokenRows (token : string) (s : Store) : list PasswordResetToken.t :=
  selectWhere (fun r => String.eqb (PasswordResetToken.token r) token)
              (passwordResetTokens s).

(** The stock rule of [createOrder] on one product row. *)
Definition decrement (q : Z) (p : Product.t) : Product.t :=
  match String.eqb (Product.type p) "physical", Product.stock p with
  | true, Some st => Product.with_stock (Some (st - q)) p
  | _, _ => p
  end.

(** The row that [createOrder] inserts for a line, and the store after the
    iteration of a line that resolved to the product [p]. *)
Definition rowOfLine (newOrder : Order.t) (l : InsertOrderItem.t) (s : Store)
    : OrderItem.t :=
  newOrderItemRow (InsertOrderItem.with_orderId (Order.id newOrder) l) s.

Definition afterLine (newOrder : Order.t) (l : InsertOrderItem.t) (p : Product.t)
    (s : Store) : Store :=
  let s1 := set_orderItems (fun t => t ++ [rowOfLine newOrder l s]) s in
  match String.eqb (Product.type p) "physical", Product.stock p with
  | true, Some st =>
      set_products
        (updateWhere (fun r => String.eqb (Product.id r) (Product.id p))
                     (Product.with_stock (Some (st - InsertOrderItem.quantity l))))
        s1
  | _, _ => s1
  end.

(** How [createOrder] is rejected when a line does not resolve, and when
    the stock that a line leaves does not fit its column. *)
Definition productMissing : Exn :=
  DatabaseError (ForeignKey "order_items" "product_id").

Definition stockOverflow : Exn :=
  DatabaseError (OutOfRange "products" "stock").

(** The quantity and the price of a line fit the columns of [order_items]. *)
Definition lineInRange (l : InsertOrderItem.t) : bool :=
  fitsInteger (InsertOrderItem.quantity l) && fitsDecimal (InsertOrderItem.price l).

(** The stock of every physical product fits its column after each of the
    lines, taken in order. *)
Definition stockInRange (s : Store) (lines : list InsertOrderItem.t) : Prop :=
  forall k productId p st,
    productRow productId s = Some p ->
    Product.type p = "physical" ->
    Product.stock p = Some st ->
    fitsInteger (st - requested productId (take k lines)) = true.



(** The effect of the iterations of [createOrder] over [lines], all resolved,
    from the store [s] to the store [s1], with [new] the items pushed: one
    row per line, carrying the line's columns; nothing else written than the
    stock of the products the lines name. *)
Definition linesApplied (newOrder : Order.t) (lines : list InsertOrderItem.t)
    (s : Store) (new : list ItemWithProduct) (s1 : Store) : Prop :=
  map (fun iw => lineOf (item iw)) new
    = map (InsertOrderItem.with_orderId (Order.id newOrder)) lines
  /\ map (fun iw => Product.id (product iw)) new
    = map InsertOrderItem.productId lines
  /\ orderItems s1 = orderItems s ++ map item new
  /\ users s1 = users s
  /\ orders s1 = orders s
  /\ passwordResetTokens s1 = passwordResetTokens s
  /\ forall pid,
      productRow pid s1
      = option_map (decrement (requested pid lines)) (productRow pid s).

(** The store once [createOrder] has inserted the order row. *)
Definition withOrder (now : Z) (order : InsertOrder.t) (s : Store) : Store :=
  set_orders (fun t => t ++ [newOrderRow now order s]) s.

(** The methods of the order workflow and of the recovery of a password that
    write to the store, and the store they leave, however they settle. *)
Inductive Call :=
| CreateOrder (now : Z) (order : InsertOrder.t) (lines : list InsertOrderItem.t)
| UpdateOrderStatus (id status : string)
| UpdateUserPassword (userId newPassword : string)
| CreatePasswordRecoveryToken (now : Z) (userId token : string)
| ValidatePasswordRecoveryToken (now : Z) (token : string)
| DeletePasswordRecoveryToken (token : string).

Definition run (c : Call) (s : Store) : Store :=
  match c with
  | CreateOrder now order lines => fst (createOrder now order lines s)
  | UpdateOrderStatus id status => fst (updateOrderStatus id status s)
  | UpdateUserPassword userId newPassword =>
      fst (updateUserPassword userId newPassword s)
  | CreatePasswordRecoveryToken now userId token =>
      fst (createPasswordRecoveryToken now userId token s)
  | ValidatePasswordRecoveryToken now token =>
      fst (validatePasswordRecoveryToken now token s)
  | DeletePasswordRecoveryToken token => fst (deletePasswordRecoveryToken token s)
  end.

(** ** Sample data, after the seed script *)

Definition admin : User.t :=
  {| User.id := "u-admin"; User.email := "admin@edujuegos.com";
     User.password := "admin123"; User.name := "Maria Gonzalez";
     User.role := "admin"; User.createdAt := Some 0 |}.

Definition customer : User.t :=
  {| User.id := "u-ana"; User.email := "ana@example.com";
     User.password := "secreto"; User.name := "Ana";
     User.role := "user"; User.createdAt := Some 0 |}.

Definition kit : Product.t :=
  {| Product.id := "p-kit"; Product.name := "Kit Estimulacion Cognitiva";
     Product.description := "Juegos para estimular memoria y atencion";
     Product.price := 1850000; Product.imageUrl := "kit.png";
     Product.type := "physical"; Product.ageRange := "3-8";
     Product.category := "Estimulacion Cognitiva";
     Product.stock := Some 12; Product.isActive := true;
     Product.createdAt := Some 0 |}.

Definition lectura : Product.t :=
  {| Product.id := "p-lectura"; Product.name := "Actividades Lectoescritura Digital";
     Product.description := "Plataforma interactiva de lectura y escritura";
     Product.price := 1290000; Product.imageUrl := "lectura.png";
     Product.type := "digital"; Product.ageRange := "5-10";
     Product.category := "Lectoescritura";
     Product.stock := None; Product.isActive := true;
     Product.createdAt := Some 0 |}.

Definition shop : Store :=
  {| users := [admin; customer]; products := [kit; lectura]; orders := [];
     orderItems := []; passwordResetTokens := [] |}.

Definition checkout (status : option string) : InsertOrder.t :=
  {| InsertOrder.total := 3140000; InsertOrder.status := status;
     InsertOrder.customerName := "Ana"; InsertOrder.customerEmail := "ana@example.com";
     InsertOrder.customerPhone := "555-0101";
     InsertOrder.shippingAddress := "Calle Falsa 123" |}.

Definition line (productId : string) (quantity price : Z) : InsertOrderItem.t :=
  {| InsertOrderItem.orderId := "";
     InsertOrderItem.productId := productId;
     InsertOrderItem.quantity := quantity;
     InsertOrderItem.price := price |}.

(** The shop after an order for one kit, placed with status [delivered]; its
    order has the identifier ["0"]. *)
Definition shopWithOrder : Store :=
  fst (createOrder 1000 (checkout (Some "delivered")) [line "p-kit" 1 1850000] shop).

(** The shop after an order of two lines; its order has the identifier
    ["0"]. *)
Definition shopWithTwoLines : Store :=
  fst (createOrder 1000 (checkout None)
         [line "p-kit" 2 1850000; line "p-lectura" 1 1290000] shop).

Definition bearer (credential : string) (id : string) {B} (b : option B) : Request B :=
  {| authorization := Some credential; params_id := id; body := b |}.


(** The header a client sends after [/api/auth/login] returned the token of
    the user [userId]. *)
Definition bearerOf (userId : string) : string :=
  String.append "Bearer mock_token_" userId.

(** ** Users and products in [DatabaseStorage] *)

(** [insertUserSchema]: the columns of [users] without [id] and [createdAt];
    [role] has a column default. *)
Module InsertUser.
Record t := mk {
  email : string;
  password : string;
  name : string;
  role : option string
}.
End InsertUser.

Definition getUserByEmail (email : string) : Promise (option User.t) :=
  read (fun s => first (selectWhere (fun u => String.eqb (User.email u) email) (users s))).

Definition newUserRow (now : Z) (v : InsertUser.t) (s : Store) : User.t :=
  {| User.id := gen_random_uuid (map User.id (users s));
     User.email := InsertUser.email v;
     User.password := InsertUser.password v;
     User.name := InsertUser.name v;
     User.role := default "user" (InsertUser.role v);
     User.createdAt := Some now |}.

(** [db.insert(users).values(insertUser).returning()]: [email] is unique. *)
Definition createUser (now : Z) (v : InsertUser.t) : Promise User.t :=
  fun s =>
    if existsb (fun u => String.eqb (User.email u) (InsertUser.email v)) (users s)
    then (s, Rejected (DatabaseError (Unique "users" "email")))
    else
      let row := newUserRow now v s in
      (set_users (fun t => t ++ [row]) s, Fulfilled row).

(** [insertProductSchema]: the columns of [products] without [id] and
    [createdAt].  [stock] is nullable, an absent [stock] is stored as null;
    [isActive] has a column default. *)
Module InsertProduct.
Record t := mk {
  name : string;
  description : string;
  price : Z;
  imageUrl : string;
  type : string;
  ageRange : string;
  category : string;
  stock : option Z;
  isActive : option bool
}.

(** The values fit the columns they are written to. *)
Definition stockInRange (v : t) : bool :=
  match stock v with
  | Some n => fitsInteger n
  | None => true
  end.

Definition inRange (v : t) : bool := stockInRange v && fitsDecimal (price v).
End InsertProduct.

(** [Partial<InsertProduct>]: every key may be absent.  A present [stock] is a
    number or null. *)
Module PartialProduct.
Record t := mk {
  name : option string;
  description : option string;
  price : option Z;
  imageUrl : option string;
  type : option string;
  ageRange : option string;
  category : option string;
  stock : option (option Z);
  isActive : option bool
}.

(** The values present fit the columns they are written to. *)
Definition stockInRange (u : t) : bool :=
  match stock u with
  | Some (Some n) => fitsInteger n
  | _ => true
  end.

Definition priceInRange (u : t) : bool :=
  match price u with
  | Some h => fitsDecimal h
  | None => true
  end.

Definition inRange (u : t) : bool := stockInRange u && priceInRange u.

Definition is_empty (u : t) : bool :=
  match name u, description u, price u, imageUrl u, type u, ageRange u,
        category u, stock u, isActive u with
  | None, None, None, None, None, None, None, None, None => true
  | _, _, _, _, _, _, _, _, _ => false
  end.

(** [set(productUpdate)] on one row: the keys present replace the columns. *)
Definition apply (u : t) (p : Product.t) : Product.t :=
  {| Product.id := Product.id p;
     Product.name := default (Product.name p) (name u);
     Product.description := default (Product.description p) (description u);
     Product.price := default (Product.price p) (price u);
     Product.imageUrl := default (Product.imageUrl p) (imageUrl u);
     Product.type := default (Product.type p) (type u);
     Product.ageRange := default (Product.ageRange p) (ageRange u);
     Product.category := default (Product.category p) (category u);
     Product.stock := default (Product.stock p) (stock u);
     Product.isActive := default (Product.isActive p) (isActive u);
     Product.createdAt := Product.createdAt p |}.
End PartialProduct.

Definition with_isActive (b : bool) (p : Product.t) : Product.t :=
  {| Product.id := Product.id p;
     Product.name := Product.name p;
     Product.description := Product.description p;
     Product.price := Product.price p;
     Product.imageUrl := Product.imageUrl p;
     Product.type := Product.type p;
     Product.ageRange := Product.ageRange p;
     Product.category := Product.category p;
     Product.stock := Product.stock p;
     Product.isActive := b;
     Product.createdAt := Product.createdAt p |}.


Definition newProductRow (now : Z) (v : InsertProduct.t) (s : Store) : Product.t :=
  {| Product.id := gen_random_uuid (map Product.id (products s));
     Product.name := InsertProduct.name v;
     Product.description := InsertProduct.description v;
     Product.price := InsertProduct.price v;
     Product.imageUrl := InsertProduct.imageUrl v;
     Product.type := InsertProduct.type v;
     Product.ageRange := InsertProduct.ageRange v;
     Product.category := InsertProduct.category v;
     Product.stock := InsertProduct.stock v;
     Product.isActive := default true (InsertProduct.isActive v);
     Product.createdAt := Some now |}.

(** [db.insert(products).values(product).returning()]: [stock] and [price]
    are converted to the types of their columns. *)
Definition createProduct (now : Z) (v : InsertProduct.t) : Promise Product.t :=
  fun s =>
    if negb (InsertProduct.stockInRange v)
    then (s, Rejected (DatabaseError (OutOfRange "products" "stock")))
    else if negb (fitsDecimal (InsertProduct.price v))
    then (s, Rejected (DatabaseError (OutOfRange "products" "price")))
    else
      let row := newProductRow now v s in
      (set_products (fun t => t ++ [row]) s, Fulfilled row).

(** [db.update(products).set(productUpdate).where(eq(products.id, id)).returning()],
    then [updatedProduct || undefined].  The query builder throws on a [set]
    that has no key to set, before any statement is sent; the store rejects
    a statement whose values do not fit their columns. *)
Definition updateProduct (id : string) (productUpdate : PartialProduct.t)
    : Promise (option Product.t) :=
  if PartialProduct.is_empty productUpdate then throw (Error "No values to set")
  else if negb (PartialProduct.stockInRange productUpdate)
  then throw (DatabaseError (OutOfRange "products" "stock"))
  else if negb (PartialProduct.priceInRange productUpdate)
  then throw (DatabaseError (OutOfRange "products" "price"))
  else
    fun s =>
      let c := fun p => String.eqb (Product.id p) id in
      (set_products (updateWhere c (PartialProduct.apply productUpdate)) s,
       Fulfilled (first (map (PartialProduct.apply productUpdate)
                             (selectWhere c (products s))))).

(** [db.update(products).set({ isActive: false }).where(eq(products.id, id))],
    then [result.rowCount ? result.rowCount > 0 : false]. *)
Definition deleteProduct (id : string) : Promise bool :=
  fun s =>
    let c := fun p => String.eqb (Product.id p) id in
    let rowCount := length (selectWhere c (products s)) in
    (set_products (updateWhere c (with_isActive false)) s,
     Fulfilled (if (rowCount =? 0)%nat then false else (0 <? rowCount)%nat)).

(** ** Orders read back *)

(** [orderBy(desc(orders.createdAt))]: later first, null before every
    timestamp.  The order among rows of equal [createdAt] is the one the sort
    below gives; the store promises none. *)
Definition notOlder (a b : Order.t) : bool :=
  match Order.createdAt a, Order.createdAt b with
  | None, _ => true
  | Some _, None => false
  | Some x, Some y => y <=? x
  end.

Definition newestFirst : relation Order.t := fun a b => notOlder a b = true.

#[global] Instance newestFirst_dec (a b : Order.t) : Decision (newestFirst a b) :=
  decide (notOlder a b = true).

Definition withItems (s : Store) (o : Order.t) : OrderWithItems :=
  {| header := o; items := itemsOfOrder (Order.id o) s |}.

Definition getOrders : Promise (list OrderWithItems) :=
  read (fun s => map (withItems s) (merge_sort newestFirst (orders s))).

Definition getOrder (id : string) : Promise (option OrderWithItems) :=
  read (fun s =>
          match orderRow id s with
          | None => None
          | Some order => Some (withItems s order)
          end).

(** ** The admin configuration *)

(** The table [admin_config] lies beside the tables of [Store]; its two
    methods touch no other table, and pass it explicitly. *)
Module AdminConfig.
Record t := mk {
  id : string;
  smtpEmail : option string;
  smtpPassword : option string;
  smtpHost : option string;
  smtpPort : option string;
  mpAccessToken : option string;
  mpPublicKey : option string;
  createdAt : option Z;
  updatedAt : option Z
}.
End AdminConfig.

(** [insertAdminConfigSchema]: six optional strings. *)
Module InsertAdminConfig.
Record t := mk {
  smtpEmail : option string;
  smtpPassword : option string;
  smtpHost : option string;
  smtpPort : option string;
  mpAccessToken : option string;
  mpPublicKey : option string
}.
End InsertAdminConfig.





(** ** The other route handlers *)

(** [{ id, email, name, role }] of a user. *)
Record UserView := {
  view_id : string;
  view_email : string;
  view_name : string;
  view_role : string
}.

Definition viewOf (u : User.t) : UserView :=
  {| view_id := User.id u; view_email := User.email u;
     view_name := User.name u; view_role := User.role u |}.

Inductive Payload :=
| Text (message : string)
| TextWithErrors (message : string)
| Session (user : UserView) (token : string)
| Registered (message : string) (user : UserView)
| Profile (user : UserView)
| ProductJson (p : Product.t)
| OrderList (os : list OrderWithItems)
| RecoverySent (message email : string).

Record Reply := {
  code : nat;
  payload : Payload
}.

Definition handle (body : Promise Reply) (handler : Exn -> Reply)
    : Store -> Store * Reply :=
  fun s =>
    match body s with
    | (s', Fulfilled r) => (s', r)
    | (s', Rejected e) => (s', handler e)
    end.

(** [error instanceof Error ? error.message : fallback].  Every value thrown
    here is an [Error]; the text of a [ZodError] is the list of its issues,
    which is none of the messages the handlers compare with. *)
Definition messageOf (e : Exn) : string :=
  match e with
  | ZodError => "[zod issues]"
  | Error message => message
  | DatabaseError v => violation_message v
  end.

Definition statusReply (e : Exn) : Reply :=
  {| code := statusOfMessage (messageOf e); payload := Text (messageOf e) |}.

Definition zodOr (zodMessage : string) (e : Exn) : Reply :=
  match e with
  | ZodError => {| code := 400; payload := TextWithErrors zodMessage |}
  | _ => statusReply e
  end.

(** [app.post("/api/auth/login", ...)]. *)
Record LoginPayload := {
  login_email : string;
  login_password : string
}.

Definition post_api_auth_login (req : Request LoginPayload)
    : Store -> Store * Reply :=
  handle
    (let* parsed := parse (body req) in
     let* user := getUserByEmail (login_email parsed) in
     match user with
     | None => resolve {| code := 401; payload := Text "Credenciales inválidas" |}
     | Some user =>
         if negb (String.eqb (User.password user) (login_password parsed))
         then resolve {| code := 401; payload := Text "Credenciales inválidas" |}
         else
           let token := String.append "mock_token_" (User.id user) in
           resolve {| code := 200; payload := Session (viewOf user) token |}
     end)
    (fun _ => {| code := 400; payload := Text "Datos de login inválidos" |}).

(** [app.post("/api/auth/register", ...)]. *)
Record RegisterPayload := {
  register_email : string;
  register_password : string;
  register_name : string;
  register_confirmPassword : string
}.

(** [registerSchema]: [confirmPassword] of six code units or more, equal to
    [password]. *)
Definition parseRegister (b : option RegisterPayload) : Promise RegisterPayload :=
  let* v := parse b in
  if (utf16Length (register_confirmPassword v) <? 6)%nat then throw ZodError
  else if negb (String.eqb (register_password v) (register_confirmPassword v))
  then throw ZodError
  else resolve v.

Definition post_api_auth_register (now : Z) (req : Request RegisterPayload)
    : Store -> Store * Reply :=
  handle
    (let* parsed := parseRegister (body req) in
     let* existingUser := getUserByEmail (register_email parsed) in
     match existingUser with
     | Some _ => resolve {| code := 400; payload := Text "El usuario ya existe" |}
     | None =>
         let userData :=
           {| InsertUser.email := register_email parsed;
              InsertUser.password := register_password parsed;
              InsertUser.name := register_name parsed;
              InsertUser.role := Some "user" |} in
         let* user := createUser now userData in
         resolve {| code := 201;
                    payload := Registered "Usuario registrado exitosamente" (viewOf user) |}
     end)
    (fun _ => {| code := 400; payload := Text "Datos de registro inválidos" |}).

(** [app.get("/api/auth/me", ...)]. *)
Definition get_api_auth_me (req : Request unit) : Store -> Store * Reply :=
  handle
    (match authorization req with
     | None => resolve {| code := 401; payload := Text "No autorizado" |}
     | Some authHeader =>
         if negb (startsWith "Bearer " authHeader)
         then resolve {| code := 401; payload := Text "No autorizado" |}
         else
           let token := substring 7 authHeader in
           if negb (startsWith "mock_token_" token)
           then resolve {| code := 401; payload := Text "Token inválido" |}
           else
             let userId := replace "mock_token_" "" token in
             let* user := getUser userId in
             match user with
             | None => resolve {| code := 401; payload := Text "Usuario no encontrado" |}
             | Some user => resolve {| code := 200; payload := Profile (viewOf user) |}
             end
     end)
    (fun _ => {| code := 500; payload := Text "Error interno del servidor" |}).

(** [app.post("/api/products", ...)], [app.put("/api/products/:id", ...)] and
    [app.delete("/api/products/:id", ...)]. *)
Definition post_api_products (now : Z) (req : Request InsertProduct.t)
    : Store -> Store * Reply :=
  handle
    (authenticateAdmin req;;
     let* productData := parse (body req) in
     let* product := createProduct now productData in
     resolve {| code := 201; payload := ProductJson product |})
    (zodOr "Datos de producto inválidos").

Definition put_api_products_id (req : Request PartialProduct.t)
    : Store -> Store * Reply :=
  handle
    (authenticateAdmin req;;
     let* productData := parse (body req) in
     let* product := updateProduct (params_id req) productData in
     match product with
     | None => resolve {| code := 404; payload := Text "Producto no encontrado" |}
     | Some product => resolve {| code := 200; payload := ProductJson product |}
     end)
    (zodOr "Datos de producto inválidos").

Definition delete_api_products_id (req : Request unit) : Store -> Store * Reply :=
  handle
    (authenticateAdmin req;;
     let* deleted := deleteProduct (params_id req) in
     if negb deleted
     then resolve {| code := 404; payload := Text "Producto no encontrado" |}
     else resolve {| code := 200; payload := Text "Producto eliminado correctamente" |})
    statusReply.

(** [app.get("/api/orders", ...)].  The handler does not test the prefix of
    the token before it removes it. *)
Definition get_api_orders (req : Request unit) : Store -> Store * Reply :=
  handle
    (match authorization req with
     | None => resolve {| code := 401; payload := Text "No autorizado" |}
     | Some authHeader =>
         if negb (startsWith "Bearer " authHeader)
         then resolve {| code := 401; payload := Text "No autorizado" |}
         else
           let token := substring 7 authHeader in
           let userId := replace "mock_token_" "" token in
           let* user := getUser userId in
           match user with
           | None => resolve {| code := 401; payload := Text "Usuario no encontrado" |}
           | Some user =>
               let* orders :=
                 if String.eqb (User.role user) "admin" then getOrders
                 else getUserOrders userId in
               resolve {| code := 200; payload := OrderList orders |}
           end
     end)
    (fun _ => {| code := 500; payload := Text "Error al obtener órdenes" |}).




(** The handlers whose schema tests the format of an e-mail address take
    the test of the schema library, [z.string().email()], as a parameter. *)
Section EmailSchemas.
Variable isEmail : string -> bool.

(** [app.post("/api/auth/password-recovery", ...)].  [token] is the string
    the handler draws with [Math.random].  What follows the insert of the
    token (the mail, or the line on the console) reads the admin
    configuration and writes neither to the store nor to the response. *)
Definition post_api_auth_password_recovery (now : Z) (token : string)
    (req : Request string) : Store -> Store * Reply :=
  handle
    (let* email := parse (body req) in
     if negb (isEmail email) then throw ZodError
     else
       let* user := getUserByEmail email in
       match user with
       | None => resolve {| code := 404; payload := Text "Usuario no encontrado" |}
       | Some user =>
           createPasswordRecoveryToken now (User.id user) token;;
           resolve {| code := 200;
                      payload := RecoverySent "Email de recuperación enviado" email |}
       end)
    (fun _ => {| code := 400; payload := Text "Error al procesar solicitud" |}).

(** [app.put("/api/auth/profile", ...)].  [IStorage] declares
    [updateUserProfile], and [DatabaseStorage] has no method of that name:
    the call throws a [TypeError]. *)
Record ProfilePayload := {
  profile_name : string;
  profile_email : string
}.

Definition updateUserProfile (userId : string) (data : ProfilePayload)
    : Promise (option User.t) :=
  throw (Error "storage.updateUserProfile is not a function").

Definition put_api_auth_profile (req : Request ProfilePayload)
    : Store -> Store * Reply :=
  handle
    (match authorization req with
     | None => resolve {| code := 401; payload := Text "No autorizado" |}
     | Some authHeader =>
         if negb (startsWith "Bearer " authHeader)
         then resolve {| code := 401; payload := Text "No autorizado" |}
         else
           let token := substring 7 authHeader in
           let userId := replace "mock_token_" "" token in
           let* parsed := parse (body req) in
           if (utf16Length (profile_name parsed) <? 1)%nat then throw ZodError
           else if negb (isEmail (profile_email parsed)) then throw ZodError
           else
             let* updatedUser := updateUserProfile userId parsed in
             match updatedUser with
             | None => resolve {| code := 404; payload := Text "Usuario no encontrado" |}
             | Some updatedUser =>
                 resolve {| code := 200;
                            payload := Registered "Perfil actualizado exitosamente"
                                                  (viewOf updatedUser) |}
             end
     end)
    (fun _ => {| code := 400; payload := Text "Error al actualizar perfil" |}).
End EmailSchemas.

(** ** Vocabulary of the further statements *)

(** The constraints of [shared/schema.ts] as a property of a store: primary
    keys and unique columns hold no value twice, and every reference names a
    row. *)
Definition keysUnique (s : Store) : Prop :=
  NoDup (map User.id (users s))
  /\ NoDup (map User.email (users s))
  /\ NoDup (map Product.id (products s))
  /\ NoDup (map Order.id (orders s))
  /\ NoDup (map OrderItem.id (orderItems s))
  /\ NoDup (map PasswordResetToken.id (passwordResetTokens s))
  /\ NoDup (map PasswordResetToken.token (passwordResetTokens s)).

Definition referencesHold (s : Store) : Prop :=
  (forall it, In it (orderItems s) ->
     In (OrderItem.orderId it) (map Order.id (orders s))
     /\ In (OrderItem.productId it) (map Product.id (products s)))
  /\ (forall o u, In o (orders s) -> Order.userId o = Some u ->
        In u (map User.id (users s)))
  /\ (forall r, In r (passwordResetTokens s) ->
        In (PasswordResetToken.userId r) (map User.id (users s))).

Definition consistent (s : Store) : Prop := keysUnique s /\ referencesHold s.

(** Every method of [DatabaseStorage] that writes to the tables of [Store],
    and the store it leaves. *)
Inductive Method :=
| CreateUser (now : Z) (v : InsertUser.t)
| CreateProduct (now : Z) (v : InsertProduct.t)
| UpdateProduct (id : string) (productUpdate : PartialProduct.t)
| DeleteProduct (id : string)
| Workflow (c : Call).

Definition perform (m : Method) (s : Store) : Store :=
  match m with
  | CreateUser now v => fst (createUser now v s)
  | CreateProduct now v => fst (createProduct now v s)
  | UpdateProduct id productUpdate => fst (updateProduct id productUpdate s)
  | DeleteProduct id => fst (deleteProduct id s)
  | Workflow c => run c s
  end.

Definition performAll (ms : list Method) (s : Store) : Store :=
  fold_left (fun s m => perform m s) ms s.




Definition emptyStore : Store :=
  {| users := []; products := []; orders := []; orderItems := [];
     passwordResetTokens := [] |}.

Definition noRequest {B} (credential : option string) (id : string) : Request B :=
  {| authorization := credential; params_id := id; body := None |}.

(** ** Facts about the query builder *)

Section TableFacts.
Context {R : Type}.
Implicit Types (c : R -> bool) (t : list R).

Lemma first_selectWhere_Some c t r :
  first (selectWhere c t) = Some r -> c r = true /\ In r t.
Proof.
  induction t as [|a t IH]; simpl; [discriminate|].
  destruct (c a) eqn:Ha; simpl.
  - intros [= <-]. auto.
  - intros H. destruct (IH H). auto.
Qed.

Lemma first_selectWhere_None c t :
  first (selectWhere c t) = None <-> existsb c t = false.
Proof.
  induction t as [|a t IH]; simpl; [tauto|].
  destruct (c a); simpl; [split; discriminate|exact IH].
Qed.



End TableFacts.

Section KeyedFacts.
Context {R : Type} (key : R -> string).

Lemma first_selectWhere_updateWhere (set : R -> R) k k' (t : list R) :
  (forall r, key (set r) = key r) ->
  first (selectWhere (fun r => String.eqb (key r) k')
                     (updateWhere (fun r => String.eqb (key r) k) set t)) =
  if String.eqb k' k
  then option_map set (first (selectWhere (fun r => String.eqb (key r) k) t))
  else first (selectWhere (fun r => String.eqb (key r) k') t).
Proof.
  intros Hset. induction t as [|a t IH]; simpl.
  - now destruct (String.eqb k' k).
  - destruct (String.eqb_spec (key a) k) as [Hk|Hk];
      destruct (String.eqb_spec k' k) as [Hk'|Hk']; subst; simpl.
    + rewrite Hset, String.eqb_refl. reflexivity.
    + rewrite Hset. destruct (String.eqb_spec (key a) k') as [E|E]; [congruence|].
      exact IH.
    + destruct (String.eqb_spec (key a) k); [congruence|]. exact IH.
    + destruct (String.eqb (key a) k'); simpl; [reflexivity|exact IH].
Qed.

End KeyedFacts.

(** ** The stock rule *)

Lemma decrement_0 p : decrement 0 p = p.
Proof.
  unfold decrement. destruct p as [i n d pr im ty ag ca [st|] ac cr]; simpl;
    destruct (String.eqb ty "physical"); try reflexivity.
  unfold Product.with_stock; simpl. now rewrite Z.sub_0_r.
Qed.

Lemma decrement_decrement q1 q2 p :
  decrement q2 (decrement q1 p) = decrement (q1 + q2) p.
Proof.
  unfold decrement. destruct p as [i n d pr im ty ag ca [st|] ac cr]; simpl;
    destruct (String.eqb ty "physical") eqn:E; simpl; rewrite ?E; try reflexivity.
  unfold Product.with_stock; simpl. do 2 f_equal. lia.
Qed.


Lemma selectWhere_absent {R} (c : R -> bool) (t : list R) :
  existsb c t = false -> selectWhere c t = [].
Proof.
  induction t as [|a t IH]; simpl; [reflexivity|].
  destruct (c a); simpl; [discriminate|exact IH].
Qed.


(** ** Further facts about the query builder *)

Lemma first_selectWhere_app {R} (c : R -> bool) (t1 t2 : list R) :
  first (selectWhere c (t1 ++ t2)) =
  match first (selectWhere c t1) with
  | Some r => Some r
  | None => first (selectWhere c t2)
  end.
Proof.
  induction t1 as [|a t1 IH]; simpl; [reflexivity|].
  destruct (c a); simpl; [reflexivity|exact IH].
Qed.

Lemma existsb_false_forall {R} (c : R -> bool) (t : list R) :
  existsb c t = false <-> forall r, In r t -> c r = false.
Proof.
  induction t as [|a t IH]; simpl; [split; [intros _ r []|reflexivity]|].
  rewrite orb_false_iff, IH. split.
  - intros [Ha Ht] r [<-|Hr]; auto.
  - intros H. split; [apply H; now left|intros r Hr; apply H; now right].
Qed.


Lemma selectWhere_unique {R} (key : R -> string) k (t : list R) r :
  NoDup (map key t) ->
  first (selectWhere (fun x => String.eqb (key x) k) t) = Some r ->
  selectWhere (fun x => String.eqb (key x) k) t = [r].
Proof.
  induction t as [|a t IH]; simpl; [discriminate|].
  intros Hnd. inversion Hnd as [|? ? Hnotin Hnd']; subst.
  destruct (String.eqb_spec (key a) k) as [Hk|Hk]; simpl.
  - intros [= <-]. f_equal. apply selectWhere_absent.
    apply existsb_false_forall. intros x Hx. apply String.eqb_neq.
    intros Hxk. apply Hnotin, list_elem_of_In. rewrite Hk, <- Hxk. now apply in_map.
  - now apply IH.
Qed.






(** ** One iteration of the loop of [createOrder] *)

Lemma productRow_exists pid s :
  productRow pid s <> None <->
  existsb (fun p => String.eqb (Product.id p) pid) (products s) = true.
Proof.
  unfold productRow. rewrite first_selectWhere_None.
  destruct (existsb _ _); split; congruence.
Qed.

Lemma productRow_set_orderItems pid f s :
  productRow pid (set_orderItems f s) = productRow pid s.
Proof. reflexivity. Qed.


Lemma set_orderItems_nil s : set_orderItems (fun t => t ++ []) s = s.
Proof. unfold set_orderItems. rewrite app_nil_r. now destruct s. Qed.

(** The insert of the row of a line, by cases. *)
Lemma insertOrderItem_line newOrder l s :
  existsb (fun o => String.eqb (Order.id o) (Order.id newOrder)) (orders s) = true ->
  insertOrderItem (InsertOrderItem.with_orderId (Order.id newOrder) l) s
  = if lineInRange l
    then match productRow (InsertOrderItem.productId l) s with
         | Some _ =>
             (set_orderItems (fun t => t ++ [rowOfLine newOrder l s]) s,
              Fulfilled (rowOfLine newOrder l s))
         | None => (s, Rejected productMissing)
         end
    else (s, Rejected (DatabaseError
                         (OutOfRange "order_items"
                            (if fitsInteger (InsertOrderItem.quantity l)
                             then "price" else "quantity")))).
Proof.
  intros Hord. unfold insertOrderItem, lineInRange.
  cbn [InsertOrderItem.with_orderId InsertOrderItem.orderId InsertOrderItem.productId
       InsertOrderItem.quantity InsertOrderItem.price].
  destruct (fitsInteger (InsertOrderItem.quantity l)); cbn [negb andb]; [|reflexivity].
  destruct (fitsDecimal (InsertOrderItem.price l)); cbn [negb]; [|reflexivity].
  rewrite Hord. cbn [negb].
  destruct (productRow (InsertOrderItem.productId l) s) as [p|] eqn:Hp.
  - assert (Hex : existsb (fun r => String.eqb (Product.id r) (InsertOrderItem.productId l))
                          (products s) = true).
    { apply productRow_exists. congruence. }
    now rewrite Hex.
  - assert (Hex : existsb (fun r => String.eqb (Product.id r) (InsertOrderItem.productId l))
                          (products s) = false).
    { destruct (existsb _ (products s)) eqn:E; [|reflexivity].
      apply productRow_exists in E. congruence. }
    now rewrite Hex.
Qed.

Lemma createOrder_items_cons_resolved newOrder l rest acc s p :
  existsb (fun o => String.eqb (Order.id o) (Order.id newOrder)) (orders s) = true ->
  lineInRange l = true ->
  productRow (InsertOrderItem.productId l) s = Some p ->
  (forall st, Product.type p = "physical" -> Product.stock p = Some st ->
              fitsInteger (st - InsertOrderItem.quantity l) = true) ->
  createOrder_items newOrder (l :: rest) acc s =
  createOrder_items newOrder rest
    (acc ++ [{| item := rowOfLine newOrder l s; product := p |}])
    (afterLine newOrder l p s).
Proof.
  intros Hord Hrange Hp Hfit.
  cbn [createOrder_items]. unfold await at 1.
  rewrite (insertOrderItem_line _ _ _ Hord), Hrange, Hp.
  unfold await at 1. unfold getProduct, read.
  rewrite productRow_set_orderItems, Hp. unfold afterLine.
  destruct (String.eqb_spec (Product.type p) "physical") as [Hty|Hty];
    [|reflexivity].
  destruct (Product.stock p) as [st|] eqn:Hst; [|reflexivity].
  unfold await, updateProductStock. now rewrite (Hfit st Hty eq_refl).
Qed.

Lemma createOrder_items_cons_overflow newOrder l rest acc s p st :
  existsb (fun o => String.eqb (Order.id o) (Order.id newOrder)) (orders s) = true ->
  lineInRange l = true ->
  productRow (InsertOrderItem.productId l) s = Some p ->
  Product.type p = "physical" ->
  Product.stock p = Some st ->
  fitsInteger (st - InsertOrderItem.quantity l) = false ->
  createOrder_items newOrder (l :: rest) acc s
  = (set_orderItems (fun t => t ++ [rowOfLine newOrder l s]) s, Rejected stockOverflow).
Proof.
  intros Hord Hrange Hp Hty Hst Hfit.
  cbn [createOrder_items]. unfold await at 1.
  rewrite (insertOrderItem_line _ _ _ Hord), Hrange, Hp.
  unfold await at 1. unfold getProduct, read.
  rewrite productRow_set_orderItems, Hp, Hty, Hst.
  change (String.eqb "physical" "physical") with true. cbv iota.
  unfold await, updateProductStock. now rewrite Hfit.
Qed.

Lemma createOrder_items_cons_missing newOrder l rest acc s :
  existsb (fun o => String.eqb (Order.id o) (Order.id newOrder)) (orders s) = true ->
  lineInRange l = true ->
  productRow (InsertOrderItem.productId l) s = None ->
  createOrder_items newOrder (l :: rest) acc s = (s, Rejected productMissing).
Proof.
  intros Hord Hrange Hp.
  cbn [createOrder_items]. unfold await at 1.
  now rewrite (insertOrderItem_line _ _ _ Hord), Hrange, Hp.
Qed.

Lemma createOrder_items_cons_unfit newOrder l rest acc s :
  existsb (fun o => String.eqb (Order.id o) (Order.id newOrder)) (orders s) = true ->
  lineInRange l = false ->
  exists e, createOrder_items newOrder (l :: rest) acc s = (s, Rejected e).
Proof.
  intros Hord Hrange.
  cbn [createOrder_items]. unfold await at 1.
  rewrite (insertOrderItem_line _ _ _ Hord), Hrange. eauto.
Qed.

Lemma productRow_afterLine newOrder l p s pid :
  productRow (InsertOrderItem.productId l) s = Some p ->
  productRow pid (afterLine newOrder l p s) =
  option_map
    (decrement (if String.eqb (InsertOrderItem.productId l) pid
                then InsertOrderItem.quantity l else 0))
    (productRow pid s).
Proof.
  intros Hp.
  assert (Hid : Product.id p = InsertOrderItem.productId l).
  { apply first_selectWhere_Some in Hp. now apply String.eqb_eq. }
  assert (Hsame : forall r, option_map (decrement 0) r = r).
  { intros [r|]; simpl; [now rewrite decrement_0|reflexivity]. }
  unfold afterLine.
  destruct (String.eqb (Product.type p) "physical") eqn:Ety;
    destruct (Product.stock p) as [st|] eqn:Est.
  - unfold productRow at 1. cbn [products set_products set_orderItems].
    rewrite (first_selectWhere_updateWhere Product.id) by reflexivity.
    rewrite Hid. fold (productRow (InsertOrderItem.productId l) s).
    fold (productRow pid s). rewrite (String.eqb_sym pid).
    destruct (String.eqb_spec (InsertOrderItem.productId l) pid) as [<-|_].
    + rewrite Hp. simpl. unfold decrement. now rewrite Ety, Est.
    + now rewrite Hsame.
  - rewrite productRow_set_orderItems.
    destruct (String.eqb_spec (InsertOrderItem.productId l) pid) as [<-|_].
    + rewrite Hp. simpl. unfold decrement. now rewrite Ety, Est.
    + now rewrite Hsame.
  - rewrite productRow_set_orderItems.
    destruct (String.eqb_spec (InsertOrderItem.productId l) pid) as [<-|_].
    + rewrite Hp. simpl. unfold decrement. now rewrite Ety.
    + now rewrite Hsame.
  - rewrite productRow_set_orderItems.
    destruct (String.eqb_spec (InsertOrderItem.productId l) pid) as [<-|_].
    + rewrite Hp. simpl. unfold decrement. now rewrite Ety.
    + now rewrite Hsame.
Qed.

Lemma afterLine_frame newOrder l p s :
  orderItems (afterLine newOrder l p s) = orderItems s ++ [rowOfLine newOrder l s]
  /\ users (afterLine newOrder l p s) = users s
  /\ orders (afterLine newOrder l p s) = orders s
  /\ passwordResetTokens (afterLine newOrder l p s) = passwordResetTokens s.
Proof.
  unfold afterLine.
  destruct (String.eqb (Product.type p) "physical"), (Product.stock p);
    repeat split; reflexivity.
Qed.

Lemma option_map_decrement_0 (r : option Product.t) : option_map (decrement 0) r = r.
Proof. destruct r; simpl; [now rewrite decrement_0|reflexivity]. Qed.

Lemma option_map_decrement_decrement q1 q2 (r : option Product.t) :
  option_map (decrement q2) (option_map (decrement q1) r)
  = option_map (decrement (q1 + q2)) r.
Proof. destruct r; simpl; [now rewrite decrement_decrement|reflexivity]. Qed.

Lemma resolves_afterLine newOrder l p s l' :
  productRow (InsertOrderItem.productId l) s = Some p ->
  resolves (afterLine newOrder l p s) l' <-> resolves s l'.
Proof.
  intros Hp. unfold resolves. rewrite (productRow_afterLine _ _ _ _ _ Hp).
  destruct (productRow (InsertOrderItem.productId l') s); simpl; split; congruence.
Qed.

(** ** The stock along the lines *)







(** ** The loop over a prefix of resolved lines *)

Lemma linesApplied_nil newOrder s : linesApplied newOrder [] s [] s.
Proof.
  repeat split; simpl; try reflexivity.
  - now rewrite app_nil_r.
  - intros pid. now rewrite option_map_decrement_0.
Qed.

Lemma linesApplied_cons newOrder l pre p s new s1 :
  productRow (InsertOrderItem.productId l) s = Some p ->
  linesApplied newOrder pre (afterLine newOrder l p s) new s1 ->
  linesApplied newOrder (l :: pre) s
    ({| item := rowOfLine newOrder l s; product := p |} :: new) s1.
Proof.
  intros Hp (Hmap & Hids & Hrows & Hu & Ho & Ht & Hstock).
  destruct (afterLine_frame newOrder l p s) as (Hitems & Husers & Horders & Htokens).
  split; [|split; [|split; [|split; [|split; [|split]]]]].
  - simpl. now rewrite Hmap.
  - simpl. rewrite Hids. f_equal.
    apply first_selectWhere_Some in Hp. now apply String.eqb_eq.
  - rewrite Hrows, Hitems. simpl. now rewrite <- app_assoc.
  - congruence.
  - congruence.
  - congruence.
  - intros pid. rewrite Hstock, (productRow_afterLine _ _ _ _ _ Hp).
    now rewrite option_map_decrement_decrement.
Qed.


(** Whatever the lines, the loop settles.  It has applied the lines before
    the first one that fails, all of them when none fails; a line fails when
    its values do not fit their columns, when it does not resolve, or when
    the stock it leaves does not fit: in this last case its row is written,
    its stock is not. *)
Lemma createOrder_items_outcome newOrder lines : forall acc s,
  existsb (fun o => String.eqb (Order.id o) (Order.id newOrder)) (orders s) = true ->
  exists pre new s1 extra,
    Forall (resolves s) pre
    /\ linesApplied newOrder pre s new s1
    /\ fst (createOrder_items newOrder lines acc s)
       = set_orderItems (fun t => t ++ extra) s1
    /\ ((lines = pre /\ extra = []
         /\ snd (createOrder_items newOrder lines acc s) = Fulfilled (acc ++ new))
        \/ exists bad post e,
             lines = pre ++ bad :: post
             /\ snd (createOrder_items newOrder lines acc s) = Rejected e
             /\ ((extra = [] /\ (lineInRange bad = false \/ ~ resolves s bad))
                 \/ (extra = [rowOfLine newOrder bad s1] /\ resolves s bad))).
Proof.
  induction lines as [|l lines IH]; intros acc s Hord.
  - exists [], [], s, []. split; [constructor|]. split; [apply linesApplied_nil|].
    split; [now rewrite set_orderItems_nil|]. left. now rewrite app_nil_r.
  - destruct (lineInRange l) eqn:Hfit.
    2:{ destruct (createOrder_items_cons_unfit newOrder l lines acc s Hord Hfit)
          as (e & Hrun).
        exists [], [], s, []. split; [constructor|]. split; [apply linesApplied_nil|].
        rewrite Hrun, set_orderItems_nil. split; [reflexivity|].
        right. exists l, lines, e. split; [reflexivity|]. split; [reflexivity|].
        left. auto. }
    destruct (productRow (InsertOrderItem.productId l) s) as [p|] eqn:Hp.
    2:{ rewrite (createOrder_items_cons_missing _ _ _ _ _ Hord Hfit Hp).
        exists [], [], s, []. split; [constructor|]. split; [apply linesApplied_nil|].
        rewrite set_orderItems_nil. split; [reflexivity|].
        right. exists l, lines, productMissing.
        split; [reflexivity|]. split; [reflexivity|].
        left. split; [reflexivity|]. right. unfold resolves. congruence. }
    assert (Hl : resolves s l) by (unfold resolves; congruence).
    assert (Hcase :
              (forall st, Product.type p = "physical" -> Product.stock p = Some st ->
                          fitsInteger (st - InsertOrderItem.quantity l) = true)
              \/ exists st, Product.type p = "physical" /\ Product.stock p = Some st
                            /\ fitsInteger (st - InsertOrderItem.quantity l) = false).
    { destruct (String.eqb_spec (Product.type p) "physical") as [Hty|Hty];
        [|left; intros; contradiction].
      destruct (Product.stock p) as [st|]; [|left; intros; discriminate].
      destruct (fitsInteger (st - InsertOrderItem.quantity l)) eqn:E.
      - left. now intros ? _ [= <-].
      - right. eauto. }
    destruct Hcase as [Hstock|(st & Hty & Hst & Hover)].
    2:{ rewrite (createOrder_items_cons_overflow _ _ _ _ _ p st Hord Hfit Hp Hty Hst Hover).
        exists [], [], s, [rowOfLine newOrder l s].
        split; [constructor|]. split; [apply linesApplied_nil|].
        split; [reflexivity|].
        right. exists l, lines, stockOverflow.
        split; [reflexivity|]. split; [reflexivity|]. right. auto. }
    rewrite (createOrder_items_cons_resolved _ _ _ _ _ p Hord Hfit Hp Hstock).
    destruct (afterLine_frame newOrder l p s) as (_ & _ & Horders & _).
    destruct (IH (acc ++ [{| item := rowOfLine newOrder l s; product := p |}])
                 (afterLine newOrder l p s))
      as (pre & new & s1 & extra & Hpre & Happ & Hfst & Hout).
    { now rewrite Horders. }
    exists (l :: pre), ({| item := rowOfLine newOrder l s; product := p |} :: new),
           s1, extra.
    split.
    { constructor; [exact Hl|]. eapply Forall_impl; [exact Hpre|].
      intros l' Hl'. now apply (resolves_afterLine _ _ _ _ _ Hp) in Hl'. }
    split; [now apply linesApplied_cons|]. split; [exact Hfst|].
    destruct Hout as [(-> & -> & Hsnd)|(bad & post & e & -> & Hsnd & Hwhy)].
    + left. split; [reflexivity|]. split; [reflexivity|].
      rewrite Hsnd. now rewrite <- app_assoc.
    + right. exists bad, post, e. split; [reflexivity|]. split; [exact Hsnd|].
      destruct Hwhy as [[-> [Hbad|Hbad]]|[-> Hbad]].
      * left. auto.
      * left. split; [reflexivity|]. right. intros H. apply Hbad.
        now apply (resolves_afterLine _ _ _ _ _ Hp).
      * right. split; [reflexivity|]. now apply (resolves_afterLine _ _ _ _ _ Hp) in Hbad.
Qed.
(** ** [createOrder] as a whole *)

Lemma newOrderRow_fresh now order s :
  ~ In (Order.id (newOrderRow now order s)) (map Order.id (orders s)).
Proof.
  intros H. apply list_elem_of_In in H.
  exact (infinite_is_fresh (map Order.id (orders s)) H).
Qed.

Lemma newOrderRow_present now order s :
  existsb (fun o => String.eqb (Order.id o) (Order.id (newOrderRow now order s)))
          (orders (withOrder now order s)) = true.
Proof.
  unfold withOrder. cbn [orders set_orders]. rewrite existsb_app. simpl.
  rewrite String.eqb_refl. now rewrite orb_true_r.
Qed.

(** The header insert, by cases on the total. *)
Lemma createOrder_unfit now order lines s :
  fitsDecimal (InsertOrder.total order) = false ->
  createOrder now order lines s
  = (s, Rejected (DatabaseError (OutOfRange "orders" "total"))).
Proof.
  intros Hfit. unfold createOrder, await at 1, insertOrder. now rewrite Hfit.
Qed.

Lemma createOrder_fit now order lines s :
  fitsDecimal (InsertOrder.total order) = true ->
  createOrder now order lines s
  = match createOrder_items (newOrderRow now order s) lines [] (withOrder now order s) with
    | (s', Fulfilled new) =>
        (s', Fulfilled {| header := newOrderRow now order s; items := new |})
    | (s', Rejected e) => (s', Rejected e)
    end.
Proof.
  intros Hfit. unfold createOrder, await at 1, insertOrder. rewrite Hfit.
  cbn [negb]. cbv zeta. fold (withOrder now order s). unfold await.
  now destruct (createOrder_items _ lines [] (withOrder now order s)) as [s' [new|e]].
Qed.



(** Whatever the request, [createOrder] settles.  When the total does not fit
    its column, nothing is written.  Otherwise the order row is written, then
    the lines before the first one that fails, all of them when none fails;
    [extra] is the row of a line whose stock update was rejected. *)
Lemma createOrder_outcome now order lines s :
  if fitsDecimal (InsertOrder.total order)
  then
    exists pre new s1 extra,
      Forall (resolves s) pre
      /\ linesApplied (newOrderRow now order s) pre (withOrder now order s) new s1
      /\ fst (createOrder now order lines s) = set_orderItems (fun t => t ++ extra) s1
      /\ ((lines = pre /\ extra = []
           /\ snd (createOrder now order lines s)
              = Fulfilled {| header := newOrderRow now order s; items := new |})
          \/ exists bad post e,
               lines = pre ++ bad :: post
               /\ snd (createOrder now order lines s) = Rejected e
               /\ ((extra = [] /\ (lineInRange bad = false \/ ~ resolves s bad))
                   \/ (extra = [rowOfLine (newOrderRow now order s) bad s1]
                       /\ resolves s bad)))
  else createOrder now order lines s
       = (s, Rejected (DatabaseError (OutOfRange "orders" "total"))).
Proof.
  destruct (fitsDecimal (InsertOrder.total order)) eqn:Htotal;
    [|now apply createOrder_unfit].
  destruct (createOrder_items_outcome (newOrderRow now order s) lines []
              (withOrder now order s) (newOrderRow_present now order s))
    as (pre & new & s1 & extra & Hpre & Happ & Hfst & Hout).
  exists pre, new, s1, extra.
  rewrite (createOrder_fit _ _ _ _ Htotal).
  destruct (createOrder_items (newOrderRow now order s) lines [] (withOrder now order s))
    as [s' [got|e']]; cbn [fst snd] in *.
  - split; [exact Hpre|]. split; [exact Happ|]. split; [exact Hfst|].
    destruct Hout as [(-> & -> & Hsnd)|(bad & post & e & _ & Hsnd & _)];
      [|discriminate].
    left. injection Hsnd as ->. split; [reflexivity|]. split; reflexivity.
  - split; [exact Hpre|]. split; [exact Happ|]. split; [exact Hfst|].
    destruct Hout as [(_ & _ & Hsnd)|(bad & post & e & -> & Hsnd & Hwhy)];
      [discriminate|].
    right. exists bad, post, e. injection Hsnd as ->.
    split; [reflexivity|]. split; [reflexivity|exact Hwhy].
Qed.

(** What every call leaves, read off [createOrder_outcome]. *)
Lemma createOrder_fulfilled now order lines s s' o :
  createOrder now order lines s = (s', Fulfilled o) ->
  fitsDecimal (InsertOrder.total order) = true
  /\ Forall (resolves s) lines
  /\ exists new,
       o = {| header := newOrderRow now order s; items := new |}
       /\ linesApplied (newOrderRow now order s) lines (withOrder now order s) new s'.
Proof.
  intros Hrun. pose proof (createOrder_outcome now order lines s) as Hout.
  destruct (fitsDecimal (InsertOrder.total order)); [|rewrite Hrun in Hout; discriminate].
  destruct Hout as (pre & new & s1 & extra & Hpre & Happ & Hfst & Hcase).
  rewrite Hrun in Hfst, Hcase. cbn [fst snd] in Hfst, Hcase.
  destruct Hcase as [(-> & -> & Hsnd)|(bad & post & e & _ & Hsnd & _)]; [|discriminate].
  rewrite set_orderItems_nil in Hfst. subst s1. injection Hsnd as ->.
  split; [reflexivity|]. split; [exact Hpre|]. eauto.
Qed.







(** ** Statements on [createOrder] *)











(** C4, as stated, fails: the price persisted for a line is the price the
    request carries for it, here 0.01 for a product whose catalog price is
    18500.00. *)
Lemma frozen_price_is_the_callers :
  let r := createOrder 1000 (checkout None) [line "p-kit" 1 1] shop in
  productRow "p-kit" shop = Some kit
  /\ Product.price kit = 1850000
  /\ map OrderItem.price (orderItems (fst r)) = [1]
  /\ exists o,
       snd r = Fulfilled o
       /\ map (fun iw => (OrderItem.price (item iw), Product.price (product iw)))
              (items o)
          = [(1, 1850000)].
Proof.
  cbv zeta. repeat split. eexists. split; reflexivity.
Qed.

(** C4, amended.  For every line of a fulfilled [createOrder], the persisted
    order item carries the price that the caller supplied in that line, next
    to the line's product id and quantity; the rows written are the items
    returned.  The catalog price of the product takes no part in the row. *)
Theorem createOrder_persists_the_price_of_the_line now order lines s s' o :
  createOrder now order lines s = (s', Fulfilled o) ->
  orderItems s' = orderItems s ++ map item (items o)
  /\ map (fun iw => OrderItem.price (item iw)) (items o)
     = map InsertOrderItem.price lines
  /\ map (fun iw => OrderItem.productId (item iw)) (items o)
     = map InsertOrderItem.productId lines
  /\ map (fun iw => Product.id (product iw)) (items o)
     = map InsertOrderItem.productId lines.
Proof.
  intros Hrun.
  destruct (createOrder_fulfilled _ _ _ _ _ _ Hrun) as (_ & _ & new & -> & Happ).
  cbn [items].
  destruct Happ as (Hmap & Hids & Hrows & _).
  split; [exact Hrows|]. split; [|split; [|exact Hids]].
  - apply (f_equal (map InsertOrderItem.price)) in Hmap.
    rewrite !map_map in Hmap. exact Hmap.
  - apply (f_equal (map InsertOrderItem.productId)) in Hmap.
    rewrite !map_map in Hmap. exact Hmap.
Qed.

Lemma createOrder_persists_the_price_of_the_line_witness :
  exists s' o,
    createOrder 1000 (checkout None) [line "p-kit" 1 1] shop = (s', Fulfilled o)
    /\ map (fun iw => OrderItem.price (item iw)) (items o) = [1].
Proof.
  eexists. eexists. split; [reflexivity|].
  exact (proj1 (proj2 (createOrder_persists_the_price_of_the_line
                         1000 (checkout None) [line "p-kit" 1 1] shop _ _ eq_refl))).
Defined.


(** ** The stock rule of [createOrder] *)






(** ** [updateOrderStatus] *)





(** ** Password recovery *)

(** The ranges of the two column types, and the lengths of some strings. *)
Lemma fitsInteger_spec n :
  fitsInteger n = true <-> -2147483648 <= n <= 2147483647.
Proof. unfold fitsInteger. rewrite andb_true_iff, !Z.leb_le. tauto. Qed.

Lemma fitsDecimal_spec h :
  fitsDecimal h = true <-> -10000000000 < h < 10000000000.
Proof. unfold fitsDecimal. rewrite andb_true_iff, !Z.ltb_lt. tauto. Qed.

Example utf16Length_examples :
  utf16Length "secreto" = 7%nat
  /\ utf16Length "niños" = 5%nat
  /\ String.length "niños" = 6%nat
  /\ utf16Length "€uro" = 4%nat
  /\ utf16Length "😀" = 2%nat
  /\ String.length "😀" = 4%nat.
Proof. repeat split. Qed.










(** ** The access gate *)

Lemma prefix_empty s : String.prefix "" s = true.
Proof. now destruct s. Qed.

Lemma append_cons a p s :
  String.append (String a p) s = String a (String.append p s).
Proof. reflexivity. Qed.

Lemma append_empty s : String.append "" s = s.
Proof. reflexivity. Qed.

Lemma prefix_append p s : String.prefix p (String.append p s) = true.
Proof.
  induction p as [|a p IH]; [apply prefix_empty|].
  rewrite append_cons. cbn [String.prefix]. now destruct (Ascii.ascii_dec a a).
Qed.

Lemma substring_all s : String.substring 0 (String.length s) s = s.
Proof. induction s as [|a s IH]; simpl; [reflexivity|now rewrite IH]. Qed.

Lemma substring_append p s :
  substring (String.length p) (String.append p s) = s.
Proof.
  unfold substring. induction p as [|a p IH].
  - rewrite append_empty. cbn [String.length]. rewrite Nat.sub_0_r.
    apply substring_all.
  - rewrite append_cons. cbn [String.length String.substring Nat.sub]. exact IH.
Qed.

Lemma replace_prefix p s : replace p "" (String.append p s) = s.
Proof.
  unfold replace.
  assert (Hindex : String.index 0 p (String.append p s) = Some 0%nat).
  { destruct (String.append p s) as [|b t] eqn:E.
    - destruct p; [reflexivity|discriminate].
    - cbn [String.index]. rewrite <- E. now rewrite prefix_append. }
  rewrite Hindex. cbn [Nat.add].
  replace (String.substring 0 0 (String.append p s)) with ""
    by now destruct (String.append p s).
  rewrite !append_empty. apply substring_append.
Qed.

Lemma userId_of_bearer userId :
  startsWith "Bearer " (bearerOf userId) = true
  /\ startsWith "mock_token_" (substring 7 (bearerOf userId)) = true
  /\ replace "mock_token_" "" (substring 7 (bearerOf userId)) = userId.
Proof.
  assert (Hcut : substring 7 (bearerOf userId) = String.append "mock_token_" userId).
  { exact (substring_append "Bearer " (String.append "mock_token_" userId)). }
  rewrite Hcut. unfold startsWith. split; [|split].
  - exact (prefix_append "Bearer " (String.append "mock_token_" userId)).
  - apply prefix_append.
  - apply replace_prefix.
Qed.

Lemma authenticateAdmin_reads_only {B} (req : Request B) s :
  fst (authenticateAdmin req s) = s.
Proof.
  unfold authenticateAdmin.
  destruct (authorization req) as [h|]; [|reflexivity].
  destruct (negb (startsWith "Bearer " h)); [reflexivity|].
  destruct (negb (startsWith "mock_token_" (substring 7 h))); [reflexivity|].
  unfold await, getUser, read.
  destruct (userRow _ s) as [u|]; [|reflexivity].
  now destruct (negb _).
Qed.

Lemma authenticateAdmin_fulfilled_iff {B} (req : Request B) s u :
  authenticateAdmin req s = (s, Fulfilled u)
  <-> exists h,
        authorization req = Some h
        /\ startsWith "Bearer " h = true
        /\ startsWith "mock_token_" (substring 7 h) = true
        /\ userRow (replace "mock_token_" "" (substring 7 h)) s = Some u
        /\ User.role u = "admin".
Proof.
  unfold authenticateAdmin. split.
  - destruct (authorization req) as [h|]; [|discriminate].
    destruct (startsWith "Bearer " h) eqn:H1; [|discriminate].
    destruct (startsWith "mock_token_" (substring 7 h)) eqn:H2; [|discriminate].
    unfold await, getUser, read. cbn [negb].
    destruct (userRow _ s) as [u'|] eqn:H3; [|discriminate].
    destruct (String.eqb_spec (User.role u') "admin") as [H4|]; [|discriminate].
    intros [= <-]. exists h. auto.
  - intros (h & -> & -> & -> & Hu & Hrole). unfold await, getUser, read.
    cbn [negb]. rewrite Hu, Hrole. reflexivity.
Qed.

Lemma authenticateAdmin_bearerOf {B} (req : Request B) userId s :
  authorization req = Some (bearerOf userId) ->
  authenticateAdmin req s
  = match userRow userId s with
    | None => (s, Rejected (Error "Usuario no encontrado"))
    | Some u =>
        if negb (String.eqb (User.role u) "admin")
        then (s, Rejected (Error "Acceso denegado"))
        else (s, Fulfilled u)
    end.
Proof.
  intros Hauth. unfold authenticateAdmin. rewrite Hauth. cbv zeta.
  destruct (userId_of_bearer userId) as (H1 & H2 & H3). rewrite H1, H2, H3.
  cbn [negb]. unfold await, getUser, read.
  destruct (userRow userId s) as [u|]; [|reflexivity].
  now destruct (negb _).
Qed.

(** What the handlers behind the gate answer for each way the gate rejects. *)
Lemma gate_rejections (req : Request string) s :
  (authorization req = None ->
   statusCode (snd (put_api_orders_id_status req s)) = 401%nat)
  /\ (forall h, authorization req = Some h -> startsWith "Bearer " h = false ->
      statusCode (snd (put_api_orders_id_status req s)) = 401%nat)
  /\ (forall h, authorization req = Some h -> startsWith "Bearer " h = true ->
      startsWith "mock_token_" (substring 7 h) = false ->
      statusCode (snd (put_api_orders_id_status req s)) = 401%nat)
  /\ (forall userId u, authorization req = Some (bearerOf userId) ->
      userRow userId s = Some u -> User.role u <> "admin" ->
      put_api_orders_id_status req s
      = (s, {| statusCode := 403; json := Message "Acceso denegado" |})).
Proof.
  split; [|split; [|split]].
  - intros Hauth.
    unfold put_api_orders_id_status, try_catch, await, authenticateAdmin.
    now rewrite Hauth.
  - intros h Hauth Hbearer.
    unfold put_api_orders_id_status, try_catch, await, authenticateAdmin.
    now rewrite Hauth, Hbearer.
  - intros h Hauth Hbearer Hmock.
    unfold put_api_orders_id_status, try_catch, await, authenticateAdmin.
    now rewrite Hauth, Hbearer, Hmock.
  - intros uid u Hauth Hu Hrole.
    unfold put_api_orders_id_status, try_catch, await.
    rewrite (authenticateAdmin_bearerOf _ _ _ Hauth), Hu.
    destruct (String.eqb_spec (User.role u) "admin"); [contradiction|reflexivity].
Qed.

(** C9, where the code departs from it.  A bearer credential that resolves to
    no user makes the gate throw [Usuario no encontrado]; the store is left as
    it was, and the handler behind the gate answers 500, where the claim has
    Unauthenticated (401). *)
Theorem unknown_user_is_answered_500 (req : Request string) userId s :
  authorization req = Some (bearerOf userId) ->
  userRow userId s = None ->
  authenticateAdmin req s = (s, Rejected (Error "Usuario no encontrado"))
  /\ put_api_orders_id_status req s
     = (s, {| statusCode := 500; json := Message "Usuario no encontrado" |}).
Proof.
  intros Hauth Hnone.
  assert (Hgate : authenticateAdmin req s
                  = (s, Rejected (Error "Usuario no encontrado"))).
  { now rewrite (authenticateAdmin_bearerOf _ _ _ Hauth), Hnone. }
  split; [exact Hgate|].
  unfold put_api_orders_id_status, try_catch, await. now rewrite Hgate.
Qed.

Lemma unknown_user_is_answered_500_witness :
  userRow "u-nadie" shopWithOrder = None
  /\ put_api_orders_id_status
       (bearer "Bearer mock_token_u-nadie" "0" (Some "shipped")) shopWithOrder
     = (shopWithOrder, {| statusCode := 500; json := Message "Usuario no encontrado" |}).
Proof.
  split; [reflexivity|].
  exact (proj2 (unknown_user_is_answered_500
                  (bearer "Bearer mock_token_u-nadie" "0" (Some "shipped"))
                  "u-nadie" shopWithOrder eq_refl eq_refl)).
Defined.

(** ** Guest orders *)






(** ** Registration and login *)



Lemma login_accepts (login : Request LoginPayload) b s u :
  body login = Some b ->
  getUserByEmail (login_email b) s = (s, Fulfilled (Some u)) ->
  User.password u = login_password b ->
  post_api_auth_login login s
  = (s, {| code := 200;
           payload := Session (viewOf u) (String.append "mock_token_" (User.id u)) |}).
Proof.
  intros Hbody Hfind Hpw. unfold post_api_auth_login, handle, await.
  rewrite Hbody. cbn [parse resolve]. rewrite Hfind, Hpw, String.eqb_refl.
  reflexivity.
Qed.



(** X2.  A registration whose e-mail a user already has is answered 400 and
    writes nothing, whatever the rest of the request. *)
Theorem register_existing_email now (req : Request RegisterPayload) b s u :
  body req = Some b ->
  In u (users s) ->
  User.email u = register_email b ->
  exists reply,
    post_api_auth_register now req s = (s, reply) /\ code reply = 400%nat.
Proof.
  intros Hbody Hin Hemail.
  unfold post_api_auth_register, handle, parseRegister, await, parse.
  rewrite Hbody. unfold resolve at 1.
  destruct (utf16Length (register_confirmPassword b) <? 6)%nat;
    [eexists; split; reflexivity|].
  destruct (negb (String.eqb (register_password b) (register_confirmPassword b)));
    [eexists; split; reflexivity|].
  unfold resolve at 1, getUserByEmail, read.
  destruct (first (selectWhere _ (users s))) as [u'|] eqn:Hfind;
    [eexists; split; reflexivity|].
  apply first_selectWhere_None in Hfind.
  rewrite existsb_false_forall in Hfind. specialize (Hfind u Hin).
  rewrite Hemail, String.eqb_refl in Hfind. discriminate.
Qed.

Lemma register_existing_email_witness :
  exists reply,
    post_api_auth_register 2000
      (bearer "" "" (Some {| register_email := "ana@example.com";
                             register_password := "otra-clave";
                             register_name := "Ana bis";
                             register_confirmPassword := "otra-clave" |}))
      shop = (shop, reply)
    /\ code reply = 400%nat.
Proof.
  apply (register_existing_email 2000
           (bearer "" "" (Some {| register_email := "ana@example.com";
                                  register_password := "otra-clave";
                                  register_name := "Ana bis";
                                  register_confirmPassword := "otra-clave" |}))
           {| register_email := "ana@example.com";
              register_password := "otra-clave";
              register_name := "Ana bis";
              register_confirmPassword := "otra-clave" |}
           shop customer eq_refl).
  - right. now left.
  - reflexivity.
Defined.

(** ** Tokens of [/api/auth/login] *)

Lemma bearer_of_token userId :
  String.append "Bearer " (String.append "mock_token_" userId) = bearerOf userId.
Proof. reflexivity. Qed.

Lemma get_api_auth_me_bearerOf (req : Request unit) userId s :
  authorization req = Some (bearerOf userId) ->
  get_api_auth_me req s
  = (s, match userRow userId s with
        | None => {| code := 401; payload := Text "Usuario no encontrado" |}
        | Some u => {| code := 200; payload := Profile (viewOf u) |}
        end).
Proof.
  intros Hauth. unfold get_api_auth_me, handle. rewrite Hauth. cbv zeta.
  destruct (userId_of_bearer userId) as (H1 & H2 & H3). rewrite H1, H2, H3.
  cbn [negb]. unfold await, getUser, read.
  now destruct (userRow userId s).
Qed.

(** X3.  The token that a login returns, sent back as a bearer credential,
    resolves to the user who logged in: [/api/auth/me] answers 200 with that
    user, and the access gate lets the credential through exactly when the
    user is an admin, and rejects it with [Acceso denegado] otherwise.  The
    login writes nothing. *)
Theorem login_token_resolves (login : Request LoginPayload) b s u :
  body login = Some b ->
  getUserByEmail (login_email b) s = (s, Fulfilled (Some u)) ->
  User.password u = login_password b ->
  userRow (User.id u) s = Some u ->
  exists token,
    post_api_auth_login login s
    = (s, {| code := 200; payload := Session (viewOf u) token |})
    /\ (forall req : Request unit,
          authorization req = Some (String.append "Bearer " token) ->
          get_api_auth_me req s
          = (s, {| code := 200; payload := Profile (viewOf u) |}))
    /\ (forall B (req : Request B),
          authorization req = Some (String.append "Bearer " token) ->
          authenticateAdmin req s
          = (s, if String.eqb (User.role u) "admin" then Fulfilled u
                else Rejected (Error "Acceso denegado"))).
Proof.
  intros Hbody Hfind Hpw Hrow.
  exists (String.append "mock_token_" (User.id u)).
  split; [exact (login_accepts login b s u Hbody Hfind Hpw)|].
  rewrite bearer_of_token. split.
  - intros req Hauth. now rewrite (get_api_auth_me_bearerOf _ _ _ Hauth), Hrow.
  - intros B req Hauth. rewrite (authenticateAdmin_bearerOf _ _ _ Hauth), Hrow.
    now destruct (String.eqb (User.role u) "admin").
Qed.

Lemma login_token_resolves_witness :
  exists token,
    post_api_auth_login
      (bearer "" "" (Some {| login_email := "ana@example.com";
                             login_password := "secreto" |}))
      shop
    = (shop, {| code := 200; payload := Session (viewOf customer) token |})
    /\ get_api_auth_me (noRequest (Some (String.append "Bearer " token)) "") shop
       = (shop, {| code := 200; payload := Profile (viewOf customer) |}).
Proof.
  destruct (login_token_resolves
              (bearer "" "" (Some {| login_email := "ana@example.com";
                                     login_password := "secreto" |}))
              _ shop customer eq_refl eq_refl eq_refl eq_refl)
    as (token & Hlogin & Hme & _).
  exists token. split; [exact Hlogin|]. now apply Hme.
Defined.

(** ** Changing a password *)







(** ** The profile route *)

(** X6.  The profile route never updates a profile: whatever the request, it
    writes nothing, and it answers 401 when the request has no bearer
    credential and 400 otherwise. *)
Theorem profile_update_never_succeeds (isEmail : string -> bool)
    (req : Request ProfilePayload) s :
  exists reply,
    put_api_auth_profile isEmail req s = (s, reply)
    /\ code reply
       = match authorization req with
         | None => 401%nat
         | Some authHeader =>
             if startsWith "Bearer " authHeader then 400%nat else 401%nat
         end.
Proof.
  unfold put_api_auth_profile, handle.
  destruct (authorization req) as [h|]; [|eexists; split; reflexivity].
  destruct (startsWith "Bearer " h); cbn [negb]; [|eexists; split; reflexivity].
  cbv zeta. unfold await, parse, updateUserProfile, resolve, throw.
  destruct (body req) as [b|]; [|eexists; split; reflexivity].
  destruct (utf16Length (profile_name b) <? 1)%nat;
    [eexists; split; reflexivity|].
  destruct (negb (isEmail (profile_email b))); eexists; split; reflexivity.
Qed.


(** ** The catalog *)














(** ** The constraints of the schema as an invariant *)

Lemma NoDup_snoc {A} (l : list A) x : NoDup l -> ~ In x l -> NoDup (l ++ [x]).
Proof.
  intros Hl Hx. apply NoDup_app. split; [exact Hl|]. split.
  - intros y Hy Hyx. apply list_elem_of_In in Hy.
    apply list_elem_of_In in Hyx. destruct Hyx as [<-|[]]. contradiction.
  - apply NoDup_singleton.
Qed.

Lemma gen_random_uuid_fresh (taken : list string) : ~ In (gen_random_uuid taken) taken.
Proof.
  intros H. apply list_elem_of_In in H. exact (infinite_is_fresh taken H).
Qed.

Lemma NoDup_map_snoc_fresh {R} (key : R -> string) (t : list R) r :
  NoDup (map key t) -> key r = gen_random_uuid (map key t) ->
  NoDup (map key (t ++ [r])).
Proof.
  intros Hnd Hkey. rewrite map_app. simpl. apply NoDup_snoc; [exact Hnd|].
  rewrite Hkey. apply gen_random_uuid_fresh.
Qed.

Lemma map_updateWhere_kept {R B} (key : R -> B) (c : R -> bool) (f : R -> R)
    (t : list R) :
  (forall r, key (f r) = key r) -> map key (updateWhere c f t) = map key t.
Proof.
  intros Hf. induction t as [|a t IH]; simpl; [reflexivity|].
  rewrite IH. destruct (c a); [rewrite Hf|]; reflexivity.
Qed.

Lemma In_updateWhere {R} (c : R -> bool) (f : R -> R) (t : list R) r :
  In r (updateWhere c f t) -> exists r0, In r0 t /\ (r = r0 \/ r = f r0).
Proof.
  unfold updateWhere. intros H. apply in_map_iff in H.
  destruct H as (r0 & <- & Hin). exists r0. split; [exact Hin|].
  destruct (c r0); auto.
Qed.

Lemma NoDup_map_deleteWhere {R B} (key : R -> B) (c : R -> bool) (t : list R) :
  NoDup (map key t) -> NoDup (map key (deleteWhere c t)).
Proof.
  unfold deleteWhere. induction t as [|a t IH]; simpl; [auto|].
  intros Hnd. apply NoDup_cons in Hnd. destruct Hnd as [Hnotin Hnd].
  destruct (negb (c a)); simpl; [|now apply IH].
  apply NoDup_cons. split; [|now apply IH].
  intros Hin. apply Hnotin. apply list_elem_of_In in Hin. apply list_elem_of_In.
  apply in_map_iff in Hin. destruct Hin as (x & Hx & Hin).
  apply filter_In in Hin. apply in_map_iff. exists x. tauto.
Qed.

Lemma In_map_snoc {R B} (key : R -> B) (t : list R) r x :
  In x (map key t) -> In x (map key (t ++ [r])).
Proof. intros H. rewrite map_app. apply in_or_app. now left. Qed.

Lemma consistent_createUser now v s :
  consistent s -> consistent (fst (createUser now v s)).
Proof.
  intros Hs. unfold createUser.
  destruct (existsb _ (users s)) eqn:Hex; [exact Hs|]. cbn [fst].
  destruct Hs as ((Hu & He & Hp & Ho & Hi & Ht & Hk) & (Hfi & Hfo & Hft)).
  split; [split; [|split; [|auto]]|split; [exact Hfi|split]];
    cbn [users products orders orderItems passwordResetTokens set_users].
  - now apply NoDup_map_snoc_fresh.
  - rewrite map_app. simpl. apply NoDup_snoc; [exact He|].
    intros Hin. apply in_map_iff in Hin. destruct Hin as (u & Hemail & Hin).
    rewrite existsb_false_forall in Hex. specialize (Hex u Hin).
    rewrite Hemail, String.eqb_refl in Hex. discriminate.
  - intros o u Ho' Hu'. apply In_map_snoc. now apply (Hfo o).
  - intros r Hr. apply In_map_snoc. now apply Hft.
Qed.

Lemma consistent_createProduct now v s :
  consistent s -> consistent (fst (createProduct now v s)).
Proof.
  intros Hs. unfold createProduct.
  destruct (negb (InsertProduct.stockInRange v)); [exact Hs|].
  destruct (negb (fitsDecimal (InsertProduct.price v))); [exact Hs|].
  destruct Hs as ((Hu & He & Hp & Ho & Hi & Ht & Hk) & (Hfi & Hfo & Hft)).
  cbn [fst].
  split; [split; [exact Hu|split; [exact He|split; [|auto]]]
         |split; [|split; [exact Hfo|exact Hft]]];
    cbn [users products orders orderItems passwordResetTokens set_products].
  - now apply NoDup_map_snoc_fresh.
  - intros it Hit. destruct (Hfi it Hit) as [H1 H2]. split; [exact H1|].
    now apply In_map_snoc.
Qed.

Lemma consistent_update_products (c : Product.t -> bool) (f : Product.t -> Product.t) s :
  (forall p, Product.id (f p) = Product.id p) ->
  consistent s -> consistent (set_products (updateWhere c f) s).
Proof.
  intros Hf ((Hu & He & Hp & Ho & Hi & Ht & Hk) & (Hfi & Hfo & Hft)).
  split; [split; [exact Hu|split; [exact He|split; [|auto]]]
         |split; [|split; [exact Hfo|exact Hft]]];
    cbn [users products orders orderItems passwordResetTokens set_products];
    rewrite (map_updateWhere_kept Product.id) by exact Hf; auto.
Qed.

Lemma consistent_updateProduct id u s :
  consistent s -> consistent (fst (updateProduct id u s)).
Proof.
  intros Hs. unfold updateProduct.
  destruct (PartialProduct.is_empty u); [exact Hs|].
  destruct (negb (PartialProduct.stockInRange u)); [exact Hs|].
  destruct (negb (PartialProduct.priceInRange u)); [exact Hs|].
  now apply consistent_update_products.
Qed.

Lemma consistent_deleteProduct id s :
  consistent s -> consistent (fst (deleteProduct id s)).
Proof. intros Hs. now apply consistent_update_products. Qed.

Lemma consistent_updateOrderStatus id status s :
  consistent s -> consistent (fst (updateOrderStatus id status s)).
Proof.
  intros ((Hu & He & Hp & Ho & Hi & Ht & Hk) & (Hfi & Hfo & Hft)).
  unfold updateOrderStatus. cbn [fst].
  split; [split; [exact Hu|split; [exact He|split; [exact Hp|split; [|auto]]]]
         |split; [|split; [|exact Hft]]];
    cbn [users products orders orderItems passwordResetTokens set_orders].
  - now rewrite (map_updateWhere_kept Order.id) by reflexivity.
  - intros it Hit. rewrite (map_updateWhere_kept Order.id) by reflexivity.
    now apply Hfi.
  - intros o u Hin Howner. apply In_updateWhere in Hin.
    destruct Hin as (o0 & Hin0 & [->| ->]); now apply (Hfo o0).
Qed.

Lemma consistent_updateUserPassword userId newPassword s :
  consistent s -> consistent (fst (updateUserPassword userId newPassword s)).
Proof.
  intros ((Hu & He & Hp & Ho & Hi & Ht & Hk) & (Hfi & Hfo & Hft)).
  unfold updateUserPassword. cbn [fst write].
  split; [split; [|split; [|auto]]|split; [exact Hfi|split]];
    cbn [users products orders orderItems passwordResetTokens set_users].
  - now rewrite (map_updateWhere_kept User.id) by reflexivity.
  - now rewrite (map_updateWhere_kept User.email) by reflexivity.
  - intros o u Hin Howner.
    rewrite (map_updateWhere_kept User.id) by reflexivity. now apply (Hfo o).
  - intros r Hr. rewrite (map_updateWhere_kept User.id) by reflexivity. now apply Hft.
Qed.

Lemma consistent_createPasswordRecoveryToken now userId token s :
  consistent s -> consistent (fst (createPasswordRecoveryToken now userId token s)).
Proof.
  intros Hs. unfold createPasswordRecoveryToken.
  destruct (existsb _ (passwordResetTokens s)) eqn:Htoken; [exact Hs|].
  destruct (existsb _ (users s)) eqn:Huser; cbn [negb]; [|exact Hs]. cbn [fst].
  destruct Hs as ((Hu & He & Hp & Ho & Hi & Ht & Hk) & (Hfi & Hfo & Hft)).
  split; [split; [exact Hu|split; [exact He|split; [exact Hp|split;
            [exact Ho|split; [exact Hi|split]]]]]
         |split; [exact Hfi|split; [exact Hfo|]]];
    cbn [users products orders orderItems passwordResetTokens set_passwordResetTokens].
  - now apply NoDup_map_snoc_fresh.
  - rewrite map_app. simpl. apply NoDup_snoc; [exact Hk|].
    intros Hin. apply in_map_iff in Hin. destruct Hin as (r & Hr & Hin).
    rewrite existsb_false_forall in Htoken. specialize (Htoken r Hin).
    rewrite Hr, String.eqb_refl in Htoken. discriminate.
  - intros r Hr. apply in_app_or in Hr. destruct Hr as [Hr|[<-|[]]]; [now apply Hft|].
    simpl. apply existsb_exists in Huser. destruct Huser as (u & Hin & Heq).
    apply String.eqb_eq in Heq. rewrite <- Heq. now apply in_map.
Qed.

Lemma consistent_deletePasswordRecoveryToken token s :
  consistent s -> consistent (fst (deletePasswordRecoveryToken token s)).
Proof.
  intros ((Hu & He & Hp & Ho & Hi & Ht & Hk) & (Hfi & Hfo & Hft)).
  unfold deletePasswordRecoveryToken. cbn [fst write].
  split; [split; [exact Hu|split; [exact He|split; [exact Hp|split;
            [exact Ho|split; [exact Hi|split]]]]]
         |split; [exact Hfi|split; [exact Hfo|]]];
    cbn [users products orders orderItems passwordResetTokens set_passwordResetTokens].
  - now apply NoDup_map_deleteWhere.
  - now apply NoDup_map_deleteWhere.
  - intros r Hr. apply filter_In in Hr. now apply Hft.
Qed.

Lemma consistent_validatePasswordRecoveryToken now token s :
  consistent s -> consistent (fst (validatePasswordRecoveryToken now token s)).
Proof.
  intros Hs. unfold validatePasswordRecoveryToken, await, read.
  destruct (take 1 _) as [|r ?]; [exact Hs|].
  destruct (_ <? _); [|exact Hs].
  now apply (consistent_deletePasswordRecoveryToken token).
Qed.

Lemma createOrder_items_invariant (P : Store -> Prop) newOrder :
  (forall l s,
      P s ->
      existsb (fun o => String.eqb (Order.id o) (Order.id newOrder)) (orders s) = true ->
      resolves s l ->
      P (set_orderItems (fun t => t ++ [rowOfLine newOrder l s]) s)) ->
  (forall l p s,
      P s ->
      existsb (fun o => String.eqb (Order.id o) (Order.id newOrder)) (orders s) = true ->
      productRow (InsertOrderItem.productId l) s = Some p ->
      P (afterLine newOrder l p s)) ->
  forall lines acc s,
    existsb (fun o => String.eqb (Order.id o) (Order.id newOrder)) (orders s) = true ->
    P s ->
    P (fst (createOrder_items newOrder lines acc s)).
Proof.
  intros Hrow Hstep. induction lines as [|l lines IH]; intros acc s Hord Hs; [exact Hs|].
  destruct (lineInRange l) eqn:Hfit.
  2:{ destruct (createOrder_items_cons_unfit newOrder l lines acc s Hord Hfit)
        as (e & ->). exact Hs. }
  destruct (productRow (InsertOrderItem.productId l) s) as [p|] eqn:Hp.
  2:{ now rewrite (createOrder_items_cons_missing _ _ _ _ _ Hord Hfit Hp). }
  assert (Hl : resolves s l) by (unfold resolves; congruence).
  assert (Hcase :
            (forall st, Product.type p = "physical" -> Product.stock p = Some st ->
                        fitsInteger (st - InsertOrderItem.quantity l) = true)
            \/ exists st, Product.type p = "physical" /\ Product.stock p = Some st
                          /\ fitsInteger (st - InsertOrderItem.quantity l) = false).
  { destruct (String.eqb_spec (Product.type p) "physical") as [Hty|Hty];
      [|left; intros; contradiction].
    destruct (Product.stock p) as [st|]; [|left; intros; discriminate].
    destruct (fitsInteger (st - InsertOrderItem.quantity l)) eqn:E.
    - left. now intros ? _ [= <-].
    - right. eauto. }
  destruct Hcase as [Hstock|(st & Hty & Hst & Hover)].
  - rewrite (createOrder_items_cons_resolved _ _ _ _ _ p Hord Hfit Hp Hstock).
    apply IH; [|now apply Hstep].
    destruct (afterLine_frame newOrder l p s) as (_ & _ & Ho & _). now rewrite Ho.
  - rewrite (createOrder_items_cons_overflow _ _ _ _ _ p st Hord Hfit Hp Hty Hst Hover).
    now apply Hrow.
Qed.

Lemma createOrder_fst now order lines s :
  fst (createOrder now order lines s)
  = if fitsDecimal (InsertOrder.total order)
    then fst (createOrder_items (newOrderRow now order s) lines []
                (withOrder now order s))
    else s.
Proof.
  destruct (fitsDecimal (InsertOrder.total order)) eqn:Htotal.
  - rewrite (createOrder_fit _ _ _ _ Htotal).
    now destruct (createOrder_items _ lines [] (withOrder now order s)) as [s' [o|e]].
  - now rewrite (createOrder_unfit _ _ _ _ Htotal).
Qed.

Lemma consistent_withOrder now order s :
  consistent s -> consistent (withOrder now order s).
Proof.
  intros ((Hu & He & Hp & Ho & Hi & Ht & Hk) & (Hfi & Hfo & Hft)).
  unfold withOrder.
  split; [split; [exact Hu|split; [exact He|split; [exact Hp|split; [|auto]]]]
         |split; [|split; [|exact Hft]]];
    cbn [users products orders orderItems passwordResetTokens set_orders].
  - now apply NoDup_map_snoc_fresh.
  - intros it Hit. destruct (Hfi it Hit) as [H1 H2]. split; [|exact H2].
    now apply In_map_snoc.
  - intros o u Hin Howner. apply in_app_or in Hin.
    destruct Hin as [Hin|[<-|[]]]; [now apply (Hfo o)|discriminate].
Qed.

Lemma consistent_row newOrder l s :
  consistent s ->
  existsb (fun o => String.eqb (Order.id o) (Order.id newOrder)) (orders s) = true ->
  resolves s l ->
  consistent (set_orderItems (fun t => t ++ [rowOfLine newOrder l s]) s).
Proof.
  intros Hs Hord Hl.
  destruct Hs as ((Hu & He & Hq & Ho & Hi & Ht & Hk) & (Hfi & Hfo & Hft)).
  split; [split; [exact Hu|split; [exact He|split; [exact Hq|split;
            [exact Ho|split; [|auto]]]]]
         |split; [|split; [exact Hfo|exact Hft]]];
    cbn [users products orders orderItems passwordResetTokens set_orderItems].
  - now apply NoDup_map_snoc_fresh.
  - intros it Hit. apply in_app_or in Hit.
    destruct Hit as [Hit|[<-|[]]]; [now apply Hfi|]. simpl. split.
    + apply existsb_exists in Hord. destruct Hord as (o & Hin & Heq).
      apply String.eqb_eq in Heq. rewrite <- Heq. now apply in_map.
    + unfold resolves in Hl.
      destruct (productRow (InsertOrderItem.productId l) s) as [p|] eqn:Hp;
        [|now elim Hl].
      apply first_selectWhere_Some in Hp. destruct Hp as [Heq Hin].
      apply String.eqb_eq in Heq. rewrite <- Heq. now apply in_map.
Qed.

Lemma consistent_afterLine newOrder l p s :
  consistent s ->
  existsb (fun o => String.eqb (Order.id o) (Order.id newOrder)) (orders s) = true ->
  productRow (InsertOrderItem.productId l) s = Some p ->
  consistent (afterLine newOrder l p s).
Proof.
  intros Hs Hord Hp.
  assert (Hrow : consistent (set_orderItems (fun t => t ++ [rowOfLine newOrder l s]) s)).
  { apply consistent_row; [exact Hs|exact Hord|]. unfold resolves. congruence. }
  unfold afterLine.
  destruct (String.eqb (Product.type p) "physical"), (Product.stock p);
    try exact Hrow.
  now apply consistent_update_products.
Qed.

Lemma consistent_createOrder now order lines s :
  consistent s -> consistent (fst (createOrder now order lines s)).
Proof.
  intros Hs. rewrite createOrder_fst.
  destruct (fitsDecimal (InsertOrder.total order)); [|exact Hs].
  apply (createOrder_items_invariant consistent).
  - intros l s0. apply consistent_row.
  - intros l p s0. apply consistent_afterLine.
  - apply newOrderRow_present.
  - now apply consistent_withOrder.
Qed.

Lemma consistent_perform m s : consistent s -> consistent (perform m s).
Proof.
  intros Hs. destruct m as [now v|now v|id u|id|c]; simpl.
  - now apply consistent_createUser.
  - now apply consistent_createProduct.
  - now apply consistent_updateProduct.
  - now apply consistent_deleteProduct.
  - destruct c; simpl.
    + now apply consistent_createOrder.
    + now apply consistent_updateOrderStatus.
    + now apply consistent_updateUserPassword.
    + now apply consistent_createPasswordRecoveryToken.
    + now apply consistent_validatePasswordRecoveryToken.
    + now apply consistent_deletePasswordRecoveryToken.
Qed.

(** X11.  The methods of the store keep the constraints that the schema
    declares.  In a store where primary keys, e-mails and tokens are unique and
    every reference names a row, every sequence of calls of the methods that
    write, fulfilled or rejected, leaves such a store; so does every sequence
    of calls from the empty store. *)
Theorem storage_keeps_constraints ms s :
  consistent s -> consistent (performAll ms s).
Proof.
  revert s. unfold performAll.
  induction ms as [|m ms IH]; intros s Hs; simpl; [exact Hs|].
  apply IH. now apply consistent_perform.
Qed.

Lemma storage_keeps_constraints_witness :
  consistent emptyStore
  /\ consistent
       (performAll
          [CreateUser 1 {| InsertUser.email := "ana@example.com";
                           InsertUser.password := "secreto";
                           InsertUser.name := "Ana";
                           InsertUser.role := None |};
           CreateUser 2 {| InsertUser.email := "ana@example.com";
                           InsertUser.password := "otra";
                           InsertUser.name := "Ana bis";
                           InsertUser.role := None |};
           Workflow (CreateOrder 3 (checkout None) [line "p-ghost" 1 500]);
           Workflow (CreateOrder 4 (checkout None) [line "p-kit" 4294967296 500])]
          emptyStore).
Proof.
  assert (H : consistent emptyStore).
  { split; [repeat split; apply NoDup_nil_2|].
    split; [intros it []|split; [intros o u []|intros r []]]. }
  split; [exact H|]. now apply storage_keeps_constraints.
Defined.

(** ** Orders read back *)

Lemma map_item_join (it : OrderItem.t) (h : string -> bool) (ps : list Product.t) :
  map item (map (fun p => {| item := it; product := p |})
                (selectWhere (fun p => h (Product.id p)) ps))
  = map (fun _ => it) (List.filter h (map Product.id ps)).
Proof.
  induction ps as [|p ps IH]; simpl; [reflexivity|].
  destruct (h (Product.id p)); simpl; now rewrite IH.
Qed.

Lemma map_item_itemsOfOrder orderId s :
  map item (itemsOfOrder orderId s)
  = flat_map
      (fun it => map (fun _ => it)
                     (List.filter (String.eqb (OrderItem.productId it))
                                  (map Product.id (products s))))
      (selectWhere (fun it => String.eqb (OrderItem.orderId it) orderId) (orderItems s)).
Proof.
  unfold itemsOfOrder.
  induction (selectWhere _ (orderItems s)) as [|it its IH]; simpl; [reflexivity|].
  rewrite map_app, IH. f_equal.
  exact (map_item_join it (String.eqb (OrderItem.productId it)) (products s)).
Qed.

Lemma getOrder_product_update (c : Product.t -> bool) (f : Product.t -> Product.t)
    id s ow :
  (forall p, Product.id (f p) = Product.id p) ->
  snd (getOrder id s) = Fulfilled (Some ow) ->
  exists ow',
    snd (getOrder id (set_products (updateWhere c f) s)) = Fulfilled (Some ow')
    /\ header ow' = header ow
    /\ map item (items ow') = map item (items ow).
Proof.
  intros Hf. unfold getOrder, read. cbn [snd].
  change (orderRow id (set_products (updateWhere c f) s)) with (orderRow id s).
  destruct (orderRow id s) as [o|]; [|discriminate].
  intros [= <-]. eexists. split; [reflexivity|]. split; [reflexivity|].
  cbn [items withItems]. rewrite !map_item_itemsOfOrder.
  cbn [products orderItems set_products].
  now rewrite (map_updateWhere_kept Product.id) by exact Hf.
Qed.

(** X12.  What [getOrder] returns of an order does not follow its products:
    after [updateProduct], whatever it sets, and after [deleteProduct], an
    order that [getOrder] found is found with the same header and the same
    item rows, with their prices and quantities.  The item rows are compared
    as a collection: the join promises no order. *)
Theorem order_items_outlive_product_changes id s ow productId productUpdate :
  snd (getOrder id s) = Fulfilled (Some ow) ->
  (exists ow',
      snd (getOrder id (fst (updateProduct productId productUpdate s)))
      = Fulfilled (Some ow')
      /\ header ow' = header ow
      /\ Permutation (map item (items ow')) (map item (items ow)))
  /\ (exists ow',
        snd (getOrder id (fst (deleteProduct productId s))) = Fulfilled (Some ow')
        /\ header ow' = header ow
        /\ Permutation (map item (items ow')) (map item (items ow))).
Proof.
  intros Hget.
  assert (Hweak : forall s0,
             (exists ow',
                 snd (getOrder id s0) = Fulfilled (Some ow')
                 /\ header ow' = header ow
                 /\ map item (items ow') = map item (items ow)) ->
             exists ow',
               snd (getOrder id s0) = Fulfilled (Some ow')
               /\ header ow' = header ow
               /\ Permutation (map item (items ow')) (map item (items ow))).
  { intros s0 (ow' & H1 & H2 & H3). exists ow'. now rewrite H3. }
  split; apply Hweak.
  - unfold updateProduct. destruct (PartialProduct.is_empty productUpdate).
    + exists ow. auto.
    + destruct (negb (PartialProduct.stockInRange productUpdate)); [exists ow; auto|].
      destruct (negb (PartialProduct.priceInRange productUpdate)); [exists ow; auto|].
      now apply getOrder_product_update.
  - now apply getOrder_product_update.
Qed.

Lemma order_items_outlive_product_changes_witness :
  exists ow',
    snd (getOrder "0"
           (fst (updateProduct "p-kit"
                   (PartialProduct.mk None None (Some 2500000) None None None
                                      None None None)
                   shopWithTwoLines)))
    = Fulfilled (Some ow')
    /\ Permutation (map (fun iw => (OrderItem.productId (item iw),
                                    OrderItem.quantity (item iw),
                                    OrderItem.price (item iw)))
                        (items ow'))
                   [("p-kit", 2, 1850000); ("p-lectura", 1, 1290000)].
Proof.
  destruct (order_items_outlive_product_changes "0" shopWithTwoLines _ "p-kit"
              (PartialProduct.mk None None (Some 2500000) None None None None None None)
              eq_refl) as [(ow' & Hget & _ & Hitems) _].
  exists ow'. split; [exact Hget|].
  apply (Permutation_map (fun it => (OrderItem.productId it, OrderItem.quantity it,
                                     OrderItem.price it))) in Hitems.
  rewrite map_map in Hitems. exact Hitems.
Defined.

Lemma selectWhere_ext {R} (c d : R -> bool) (t : list R) :
  (forall r, c r = d r) -> selectWhere c t = selectWhere d t.
Proof.
  intros H. unfold selectWhere. induction t as [|a t IH]; simpl; [reflexivity|].
  now rewrite H, IH.
Qed.

Lemma productRow_present_id id s :
  In id (map Product.id (products s)) -> productRow id s <> None.
Proof.
  intros Hin Hnone. unfold productRow in Hnone.
  apply first_selectWhere_None in Hnone. rewrite existsb_false_forall in Hnone.
  apply in_map_iff in Hin. destruct Hin as (p & Hid & Hp).
  specialize (Hnone p Hp). cbv beta in Hnone.
  rewrite Hid, String.eqb_refl in Hnone. discriminate.
Qed.

Lemma join_single productId s p :
  NoDup (map Product.id (products s)) ->
  productRow productId s = Some p ->
  selectWhere (fun q => String.eqb productId (Product.id q)) (products s) = [p].
Proof.
  intros Hnd Hp.
  rewrite (selectWhere_ext _ (fun q => String.eqb (Product.id q) productId))
    by (intros q; apply String.eqb_sym).
  now apply (selectWhere_unique Product.id).
Qed.

Lemma join_rows s (its : list OrderItem.t) :
  NoDup (map Product.id (products s)) ->
  (forall it, In it its -> In (OrderItem.productId it) (map Product.id (products s))) ->
  let joined :=
    flat_map
      (fun it =>
         map (fun p => {| item := it; product := p |})
             (selectWhere (fun p => String.eqb (OrderItem.productId it) (Product.id p))
                          (products s)))
      its in
  map item joined = its
  /\ Forall (fun iw => productRow (OrderItem.productId (item iw)) s = Some (product iw))
            joined.
Proof.
  intros Hnd. induction its as [|it its IH]; intros Hin; simpl; [split; constructor|].
  destruct IH as [IH1 IH2]; [intros x Hx; apply Hin; now right|].
  destruct (productRow (OrderItem.productId it) s) as [p|] eqn:Hp.
  - rewrite (join_single _ _ _ Hnd Hp). simpl. split; [now rewrite IH1|].
    constructor; [exact Hp|exact IH2].
  - exfalso. apply (productRow_present_id (OrderItem.productId it) s); [|exact Hp].
    apply Hin. now left.
Qed.

(** X13.  An order that [createOrder] returned is read back by [getOrder]: in
    a store that satisfies the constraints of the schema, [getOrder] on the
    identifier of the returned order finds the same header and the same item
    rows, each joined to the row that its product has after the call.  The
    item rows are compared as a collection: the join promises no order. *)
Theorem createOrder_then_getOrder now order lines s s' o :
  consistent s ->
  createOrder now order lines s = (s', Fulfilled o) ->
  exists ow,
    getOrder (Order.id (header o)) s' = (s', Fulfilled (Some ow))
    /\ header ow = header o
    /\ Permutation (map item (items ow)) (map item (items o))
    /\ Forall (fun iw =>
                 productRow (OrderItem.productId (item iw)) s' = Some (product iw))
              (items ow).
Proof.
  intros Hs Hrun.
  assert (Hs' : consistent s').
  { replace s' with (fst (createOrder now order lines s)) by now rewrite Hrun.
    now apply consistent_createOrder. }
  destruct (createOrder_fulfilled _ _ _ _ _ _ Hrun) as (_ & _ & new & -> & Happ).
  cbn [header items].
  destruct Happ as (Hmap & _ & Hrows & _ & Horders & _).
  set (newOrder := newOrderRow now order s) in *.
  assert (Hfresh : ~ In (Order.id newOrder) (map Order.id (orders s)))
    by apply newOrderRow_fresh.
  assert (Hrow : orderRow (Order.id newOrder) s' = Some newOrder).
  { unfold orderRow. rewrite Horders. unfold withOrder. cbn [orders set_orders].
    rewrite first_selectWhere_app.
    assert (Hnone : first (selectWhere
                             (fun x => String.eqb (Order.id x) (Order.id newOrder))
                             (orders s)) = None).
    { apply first_selectWhere_None, existsb_false_forall. intros x Hx.
      apply String.eqb_neq. intros Heq. apply Hfresh. rewrite <- Heq.
      now apply in_map. }
    fold newOrder. rewrite Hnone. simpl. now rewrite String.eqb_refl. }
  assert (Hselected :
            selectWhere (fun it => String.eqb (OrderItem.orderId it) (Order.id newOrder))
                        (orderItems s')
            = map item new).
  { rewrite Hrows. unfold withOrder. cbn [orderItems set_orders].
    unfold selectWhere. rewrite List.filter_app.
    assert (Hold : List.filter
                     (fun it => String.eqb (OrderItem.orderId it) (Order.id newOrder))
                     (orderItems s) = []).
    { apply (selectWhere_absent _ (orderItems s)), existsb_false_forall.
      intros it Hit. apply String.eqb_neq. intros Heq. apply Hfresh.
      rewrite <- Heq. destruct Hs as (_ & Hfi & _). now apply Hfi. }
    rewrite Hold. simpl. apply forallb_filter_id. apply forallb_forall.
    intros it Hit. apply String.eqb_eq.
    apply in_map_iff in Hit. destruct Hit as (iw & <- & Hiw).
    assert (Hin : In (lineOf (item iw))
                     (map (InsertOrderItem.with_orderId (Order.id newOrder)) lines)).
    { rewrite <- Hmap. apply in_map_iff. eauto. }
    apply in_map_iff in Hin. destruct Hin as (l & Hl & _).
    now apply (f_equal InsertOrderItem.orderId) in Hl. }
  destruct Hs' as ((_ & _ & Hnd & _) & (Hfi & _)).
  destruct (join_rows s' (map item new) Hnd) as [Hitems Hjoined].
  { intros it Hit. apply Hfi. rewrite Hrows. apply in_or_app. now right. }
  exists (withItems s' newOrder).
  unfold getOrder, read. rewrite Hrow. split; [reflexivity|].
  split; [reflexivity|].
  cbn [items withItems]. unfold itemsOfOrder. rewrite Hselected.
  split; [now rewrite Hitems|exact Hjoined].
Qed.

Lemma createOrder_then_getOrder_witness :
  consistent shop
  /\ exists ow,
       snd (getOrder "0" shopWithTwoLines) = Fulfilled (Some ow)
       /\ Permutation (map (fun iw => (OrderItem.productId (item iw),
                                       OrderItem.quantity (item iw)))
                           (items ow))
                      [("p-kit", 2); ("p-lectura", 1)].
Proof.
  assert (H : consistent shop).
  { split; [|split; [intros it []|split; [intros o u []|intros r []]]].
    repeat split; try apply NoDup_nil_2;
      apply (bool_decide_unpack _); vm_compute; exact I. }
  split; [exact H|].
  destruct (createOrder_then_getOrder 1000 (checkout None)
              [line "p-kit" 2 1850000; line "p-lectura" 1 1290000] shop _ _ H eq_refl)
    as (ow & Hget & _ & Hitems & _).
  exists ow. split.
  - apply (f_equal snd) in Hget. exact Hget.
  - apply (Permutation_map (fun it => (OrderItem.productId it, OrderItem.quantity it)))
      in Hitems.
    rewrite !map_map in Hitems. exact Hitems.
Defined.

(** ** The listing of orders *)

Lemma newestFirst_total : Total newestFirst.
Proof.
  intros a b. unfold newestFirst, notOlder.
  destruct (Order.createdAt a) as [x|], (Order.createdAt b) as [y|]; auto.
  destruct (Z.leb_spec y x); [now left|right]. apply Z.leb_le. lia.
Qed.

Lemma newestFirst_transitive : Transitive newestFirst.
Proof.
  intros a b c. unfold newestFirst, notOlder.
  destruct (Order.createdAt a) as [x|], (Order.createdAt b) as [y|],
           (Order.createdAt c) as [z|]; auto; try discriminate.
  rewrite !Z.leb_le. lia.
Qed.

Lemma map_header_withItems s (l : list Order.t) : map header (map (withItems s) l) = l.
Proof. rewrite map_map. apply map_id. Qed.

(** X14.  [getOrders] lists every order once, each with the items that the
    join gives for it, and no order comes before one that was created later;
    an order without a creation time comes before those that have one. *)
Theorem getOrders_newest_first s :
  exists listed,
    getOrders s = (s, Fulfilled listed)
    /\ Permutation (map header listed) (orders s)
    /\ StronglySorted newestFirst (map header listed)
    /\ Forall (fun ow => items ow = itemsOfOrder (Order.id (header ow)) s) listed.
Proof.
  eexists. split; [reflexivity|]. rewrite map_header_withItems.
  pose proof newestFirst_total. pose proof newestFirst_transitive.
  split; [apply merge_sort_Permutation|].
  split; [now apply StronglySorted_merge_sort|].
  apply Forall_forall. intros ow How. apply list_elem_of_In, in_map_iff in How.
  now destruct How as (o & <- & _).
Qed.

Lemma get_api_orders_resolved (req : Request unit) userId s u :
  authorization req = Some (bearerOf userId) ->
  userRow userId s = Some u ->
  get_api_orders req s
  = (s, {| code := 200;
           payload :=
             OrderList
               (if String.eqb (User.role u) "admin"
                then map (withItems s) (merge_sort newestFirst (orders s))
                else map (withItems s) (selectWhere (ownedBy userId) (orders s))) |}).
Proof.
  intros Hauth Hrow. unfold get_api_orders, handle. rewrite Hauth. cbv zeta.
  destruct (userId_of_bearer userId) as (H1 & H2 & H3). rewrite H1, H3.
  cbn [negb]. unfold await at 1, getUser, read. rewrite Hrow.
  unfold await. now destruct (String.eqb (User.role u) "admin").
Qed.

(** X15.  The listing route scopes by role.  For the credential of an admin
    it answers with all the orders; for the credential of any other user it
    answers with the orders whose owner is that user, and with no other. *)
Theorem get_api_orders_scope (req : Request unit) userId s u :
  authorization req = Some (bearerOf userId) ->
  userRow userId s = Some u ->
  exists listed,
    get_api_orders req s = (s, {| code := 200; payload := OrderList listed |})
    /\ (User.role u = "admin" -> Permutation (map header listed) (orders s))
    /\ (User.role u <> "admin" ->
        forall o, In o (map header listed)
                  <-> In o (orders s) /\ Order.userId o = Some userId).
Proof.
  intros Hauth Hrow. rewrite (get_api_orders_resolved _ _ _ _ Hauth Hrow).
  eexists. split; [reflexivity|]. split.
  - intros Hadmin. rewrite Hadmin.
    change (String.eqb "admin" "admin") with true. cbv iota.
    rewrite map_header_withItems. apply merge_sort_Permutation.
  - intros Hrole o.
    destruct (String.eqb_spec (User.role u) "admin"); [contradiction|].
    rewrite map_header_withItems. unfold selectWhere. rewrite filter_In.
    unfold ownedBy. destruct (Order.userId o) as [w|].
    + rewrite String.eqb_eq. split; intros [Hin Heq]; (split; [exact Hin|congruence]).
    + split; intros [_ Hfalse]; discriminate.
Qed.

Lemma get_api_orders_scope_witness :
  exists listed,
    get_api_orders (noRequest (Some (bearerOf "u-ana")) "") shopWithOrder
    = (shopWithOrder, {| code := 200; payload := OrderList listed |})
    /\ forall o, In o (map header listed)
                 <-> In o (orders shopWithOrder) /\ Order.userId o = Some "u-ana".
Proof.
  destruct (get_api_orders_scope (noRequest (Some (bearerOf "u-ana")) "")
              "u-ana" shopWithOrder customer eq_refl eq_refl)
    as (listed & Hrun & _ & Hscope).
  exists listed. split; [exact Hrun|]. apply Hscope. discriminate.
Defined.

Lemma index_None_prefix p s :
  String.index 0 p s = None -> String.prefix p s = false.
Proof.
  destruct s as [|b s]; cbn [String.index].
  - now destruct p.
  - now destruct (String.prefix p (String b s)).
Qed.

(** X16.  The listing route does not test the prefix of the token.  A bearer
    credential that is the bare identifier of a user, without [mock_token_],
    is answered as the token of that user is, whereas [/api/auth/me] answers
    it 401. *)
Theorem get_api_orders_skips_prefix_test (req req' : Request unit) userId s :
  String.index 0 "mock_token_" userId = None ->
  authorization req = Some (String.append "Bearer " userId) ->
  authorization req' = Some (bearerOf userId) ->
  get_api_orders req s = get_api_orders req' s
  /\ get_api_auth_me req s = (s, {| code := 401; payload := Text "Token inválido" |}).
Proof.
  intros Hindex Hreq Hreq'.
  assert (Hcut : substring 7 (String.append "Bearer " userId) = userId)
    by exact (substring_append "Bearer " userId).
  assert (Hbearer : startsWith "Bearer " (String.append "Bearer " userId) = true)
    by exact (prefix_append "Bearer " userId).
  split.
  - unfold get_api_orders. rewrite Hreq, Hreq'. cbv zeta.
    destruct (userId_of_bearer userId) as (H1 & _ & H3).
    rewrite H1, H3, Hbearer, Hcut. unfold replace. now rewrite Hindex.
  - unfold get_api_auth_me, handle. rewrite Hreq. cbv zeta.
    rewrite Hbearer, Hcut. unfold startsWith.
    now rewrite (index_None_prefix _ _ Hindex).
Qed.

Lemma get_api_orders_skips_prefix_test_witness :
  get_api_orders (noRequest (Some "Bearer u-admin") "") shopWithOrder
  = get_api_orders (noRequest (Some (bearerOf "u-admin")) "") shopWithOrder
  /\ code (snd (get_api_orders (noRequest (Some "Bearer u-admin") "") shopWithOrder))
     = 200%nat.
Proof.
  split; [|reflexivity].
  exact (proj1 (get_api_orders_skips_prefix_test
                  (noRequest (Some "Bearer u-admin") "")
                  (noRequest (Some (bearerOf "u-admin")) "")
                  "u-admin" shopWithOrder eq_refl eq_refl eq_refl)).
Defined.

(** ** Writes behind the gate *)

Lemma authenticateAdmin_header {B C} (req : Request B) (req' : Request C) s :
  authorization req' = authorization req ->
  authenticateAdmin req' s = authenticateAdmin req s.
Proof. intros H. unfold authenticateAdmin. now rewrite H. Qed.

Lemma authenticateAdmin_rejected {B} (req : Request B) s e :
  snd (authenticateAdmin req s) = Rejected e ->
  authenticateAdmin req s = (s, Rejected e)
  /\ (e = Error "No autorizado" \/ e = Error "Token inválido"
      \/ e = Error "Usuario no encontrado" \/ e = Error "Acceso denegado").
Proof.
  intros Hrej. split.
  - pose proof (authenticateAdmin_reads_only req s) as Hfst.
    destruct (authenticateAdmin req s) as [s' r]. cbn [fst snd] in *.
    now subst.
  - revert Hrej. unfold authenticateAdmin.
    destruct (authorization req) as [h|]; [|intros [= <-]; auto].
    destruct (negb (startsWith "Bearer " h)); [intros [= <-]; auto|].
    destruct (negb (startsWith "mock_token_" (substring 7 h))); [intros [= <-]; auto|].
    unfold await, getUser, read.
    destruct (userRow _ s) as [u|]; [|intros [= <-]; auto].
    destruct (negb _); [intros [= <-]; auto|discriminate].
Qed.

(** X17.  No handler behind the access gate writes before the gate has let
    the request through.  When the gate rejects the credential, the creation,
    the update and the deletion of a product and the update of an order
    status leave the store as it was, and all answer with the same status,
    which is 401, 403 or 500. *)
Theorem writes_wait_for_the_gate now s e
    (create : Request InsertProduct.t) (update : Request PartialProduct.t)
    (delete : Request unit) (status : Request string) :
  snd (authenticateAdmin create s) = Rejected e ->
  authorization update = authorization create ->
  authorization delete = authorization create ->
  authorization status = authorization create ->
  post_api_products now create s = (s, statusReply e)
  /\ put_api_products_id update s = (s, statusReply e)
  /\ delete_api_products_id delete s = (s, statusReply e)
  /\ fst (put_api_orders_id_status status s) = s
  /\ statusCode (snd (put_api_orders_id_status status s)) = code (statusReply e)
  /\ (code (statusReply e) = 401%nat \/ code (statusReply e) = 403%nat
      \/ code (statusReply e) = 500%nat).
Proof.
  intros Hrej Hupdate Hdelete Hstatus.
  destruct (authenticateAdmin_rejected _ _ _ Hrej) as [Hgate Hcases].
  assert (Hzod : forall m, zodOr m e = statusReply e).
  { intros m. destruct Hcases as [->|[->|[->| ->]]]; reflexivity. }
  split; [|split; [|split; [|split; [|split]]]].
  - unfold post_api_products, handle, await. rewrite Hgate. apply f_equal, Hzod.
  - unfold put_api_products_id, handle, await.
    rewrite (authenticateAdmin_header create update s Hupdate), Hgate.
    apply f_equal, Hzod.
  - unfold delete_api_products_id, handle, await.
    now rewrite (authenticateAdmin_header create delete s Hdelete), Hgate.
  - unfold put_api_orders_id_status, try_catch, await.
    now rewrite (authenticateAdmin_header create status s Hstatus), Hgate.
  - unfold put_api_orders_id_status, try_catch, await.
    rewrite (authenticateAdmin_header create status s Hstatus), Hgate.
    destruct Hcases as [->|[->|[->| ->]]]; reflexivity.
  - destruct Hcases as [->|[->|[->| ->]]]; cbn; auto.
Qed.

Lemma writes_wait_for_the_gate_witness :
  delete_api_products_id (noRequest (Some (bearerOf "u-ana")) "p-kit") shop
  = (shop, {| code := 403; payload := Text "Acceso denegado" |}).
Proof.
  exact (proj1 (proj2 (proj2
           (writes_wait_for_the_gate 0 shop (Error "Acceso denegado")
              (noRequest (Some (bearerOf "u-ana")) "")
              (noRequest (Some (bearerOf "u-ana")) "")
              (noRequest (Some (bearerOf "u-ana")) "p-kit")
              (noRequest (Some (bearerOf "u-ana")) "")
              eq_refl eq_refl eq_refl eq_refl)))).
Defined.

(** ** Recovery of a password, end to end *)




(** X19.  A recovery request writes nothing when it cannot be served.  When no
    user has the e-mail, or when a row already carries the token, the store is
    left as it was; the answer is 404 for a well-formed e-mail that no user
    has, and 400 otherwise: for a malformed e-mail, and for the e-mail of a
    user when the token is taken. *)
Theorem recovery_refused (isEmail : string -> bool) now token (req : Request string)
    email s :
  body req = Some email ->
  (forall u, In u (users s) -> User.email u <> email) \/ tokenRows token s <> [] ->
  exists reply,
    post_api_auth_password_recovery isEmail now token req s = (s, reply)
    /\ code reply
       = if isEmail email
         then match snd (getUserByEmail email s) with
              | Fulfilled None => 404%nat
              | _ => 400%nat
              end
         else 400%nat.
Proof.
  intros Hbody Hcase.
  unfold post_api_auth_password_recovery, handle, await at 1. rewrite Hbody.
  cbn [parse resolve].
  destruct (isEmail email); cbn [negb]; [|eexists; split; reflexivity].
  unfold await at 1, getUserByEmail, read. cbn [snd].
  destruct (first (selectWhere _ (users s))) as [u|] eqn:Hfind;
    [|eexists; split; reflexivity].
  destruct Hcase as [Habsent|Htaken].
  - exfalso. destruct (first_selectWhere_Some _ _ _ Hfind) as [Hmail Hin].
    apply String.eqb_eq in Hmail. exact (Habsent u Hin Hmail).
  - unfold await, createPasswordRecoveryToken.
    destruct (existsb _ (passwordResetTokens s)) eqn:Hex;
      [eexists; split; reflexivity|].
    exfalso. apply Htaken. now apply selectWhere_absent.
Qed.

Lemma recovery_refused_witness :
  exists reply,
    post_api_auth_password_recovery (fun _ => true) 1000 "abc123"
      (bearer "" "" (Some "nadie@example.com")) shop = (shop, reply)
    /\ code reply = 404%nat.
Proof.
  destruct (recovery_refused (fun _ => true) 1000 "abc123"
              (bearer "" "" (Some "nadie@example.com")) "nadie@example.com" shop
              eq_refl) as [reply [Hroute Hcode]].
  - left. intros u [<-|[<-|[]]]; discriminate.
  - exists reply. split; [exact Hroute|exact Hcode].
Defined.

(** ** The admin configuration *)



(** ** What the order and product routes answer *)




